(** * Video-analytics dashboard: the client-side synchronisation core

    A shallow embedding of the React front end
    ([frontend/src/App.js], [components/Dashboard.js],
    [components/SystemStats.js], and [getObjectCounts] of
    [components/DetectionFeed.js]) and the properties its specification
    states about it.

    - [JS]: the JavaScript values the components handle (whatever
      [JSON.parse] and [response.json()] return), truthiness, property
      reads, and the few operators the source applies to them.
    - [Dashboard], [SystemStats], [getObjectCounts]: the components, as
      functions from props to the element tree they return.
    - [App]: the five [useState] cells, the two effects, the WebSocket
      callbacks and the fetch continuations, as transitions of a world
      that also holds the browser side (timer, socket, requests in
      flight, console).  A cell of that world holds what its setter was
      last called with.
    - [component], [deliver], [session]: what React makes of these
      transitions: a render error takes the component down, and a
      component that is gone ignores its setters. *)

From Stdlib Require Import ZArith NArith Ascii.
From stdpp Require Import base strings gmap list pretty sorting.

Local Open Scope Z_scope.

(** ** JavaScript values *)

Module JS.

(** Numbers on these interfaces are counters and queue depths: they are
    modelled as integers, on which [>], [===], truthiness, [+ 1] and the
    conversion to a property key agree with IEEE doubles below 2^53.  A
    quotient is never computed: it is kept as a formal dividend/divisor
    pair (see [ToFixed]).  Strings are byte strings, so [length] counts
    bytes (UTF-16 units in the source; the same on ASCII, and zero for
    the same strings).  [VBuiltin k] is the member [k] that every plain
    object inherits from [Object.prototype]. *)
#[warnings="-register-all"] Inductive jsval :=
| VUndefined
| VNull
| VBool (b : bool)
| VNum (n : Z)
| VStr (s : string)
| VArr (xs : list jsval)
| VObj (props : gmap string jsval)
| VBuiltin (name : string).

Inductive exn := TypeError | SyntaxError.

(** Outcome of evaluating an expression: a value, a thrown exception, or
    [Unmodelled] when the source would apply a coercion this embedding
    does not cover (ToNumber of a string, ToPrimitive of an array or of
    an object). *)
Inductive res (A : Type) :=
| Ok (a : A)
| Throw (e : exn)
| Unmodelled.
Arguments Ok {A} a.
Arguments Throw {A} e.
Arguments Unmodelled {A}.

Definition res_bind {A B} (f : A → res B) (m : res A) : res B :=
  match m with
  | Ok a => f a
  | Throw e => Throw e
  | Unmodelled => Unmodelled
  end.

#[export] Instance res_ret : MRet res := @Ok.
#[export] Instance res_mbind : MBind res := @res_bind.
#[export] Instance res_fmap : FMap res :=
  λ A B f m, res_bind (λ a, Ok (f a)) m.

Fixpoint mapM {A B} (f : A → res B) (l : list A) : res (list B) :=
  match l with
  | [] => Ok []
  | x :: l' => y ← f x; ys ← mapM f l'; Ok (y :: ys)
  end.

(** ToBoolean. *)
Definition truthy (v : jsval) : bool :=
  match v with
  | VUndefined | VNull => false
  | VBool b => b
  | VNum n => negb (n =? 0)
  | VStr s => negb (String.eqb s "")
  | VArr _ | VObj _ | VBuiltin _ => true
  end.

Definition nullish (v : jsval) : bool :=
  match v with
  | VUndefined | VNull => true
  | _ => false
  end.

(** The property names of [Object.prototype] (ECMAScript, with the
    Annex B accessors every browser ships). *)
Definition object_prototype : list string :=
  [ "constructor"; "hasOwnProperty"; "isPrototypeOf";
    "propertyIsEnumerable"; "toLocaleString"; "toString"; "valueOf";
    "__defineGetter__"; "__defineSetter__"; "__lookupGetter__";
    "__lookupSetter__"; "__proto__" ].

Definition inherited (k : string) : jsval :=
  if bool_decide (k ∈ object_prototype) then VBuiltin k else VUndefined.

(** [o[k]] on a plain object with own properties [own]. *)
Definition obj_get (own : gmap string jsval) (k : string) : jsval :=
  match own !! k with
  | Some v => v
  | None => inherited k
  end.

(** [v.k] for the names the components read ([length] and the field
    names of the payloads): own and inherited properties of objects,
    [length] of arrays and strings.  None of these names is a member of
    the prototype of an array, a string, a number or a boolean, so such a
    value has no other; reading from [null] or [undefined] throws. *)
Definition prop (v : jsval) (k : string) : jsval :=
  match v with
  | VObj own => obj_get own k
  | VArr xs =>
      if String.eqb k "length" then VNum (Z.of_nat (length xs))
      else VUndefined
  | VStr s =>
      if String.eqb k "length" then VNum (Z.of_nat (String.length s))
      else VUndefined
  | _ => VUndefined
  end.

Definition get (v : jsval) (k : string) : res jsval :=
  if nullish v then Throw TypeError else Ok (prop v k).

(** [v?.k] *)
Definition get_opt (v : jsval) (k : string) : jsval :=
  if nullish v then VUndefined else prop v k.

(** [a || b], the right operand evaluated only when the left is falsy. *)
Definition or_else (a : jsval) (b : res jsval) : res jsval :=
  if truthy a then Ok a else b.

(** [v === 0] *)
Definition is_zero (v : jsval) : bool :=
  match v with
  | VNum 0 => true
  | _ => false
  end.

(** [v > 0]: ToNumber sends [undefined] to NaN, [null] to 0, booleans to
    0 and 1. *)
Definition gt0 (v : jsval) : res bool :=
  match v with
  | VUndefined | VNull => Ok false
  | VBool b => Ok b
  | VNum n => Ok (0 <? n)
  | VStr _ | VArr _ | VObj _ | VBuiltin _ => Unmodelled
  end.

(** ToNumber on the operands of [/]. *)
Definition to_number (v : jsval) : res Z :=
  match v with
  | VNull => Ok 0
  | VBool b => Ok (if b then 1 else 0)
  | VNum n => Ok n
  | _ => Unmodelled
  end.

(** ToPropertyKey, for [counts[det.class_name]].  An integer below
    10^21 in absolute value is printed in decimal digits; from there on
    JavaScript prints an exponent. *)
Definition to_key (v : jsval) : res string :=
  match v with
  | VUndefined => Ok "undefined"
  | VNull => Ok "null"
  | VBool b => Ok (if b then "true" else "false")
  | VNum n => if Z.abs n <? 10 ^ 21 then Ok (pretty n) else Unmodelled
  | VStr s => Ok s
  | VArr _ | VObj _ | VBuiltin _ => Unmodelled
  end.

(** What ToPrimitive makes of an inherited member: the accessor
    [__proto__] yields [Object.prototype] itself; the others are native
    functions, [constructor] being [Object] (text as V8 and
    JavaScriptCore print it). *)
Definition builtin_text (k : string) : string :=
  if String.eqb k "__proto__" then "[object Object]"
  else if String.eqb k "constructor" then "function Object() { [native code] }"
  else "function " +:+ k +:+ "() { [native code] }".

(** [v + 1] *)
Definition plus1 (v : jsval) : res jsval :=
  match v with
  | VNull => Ok (VNum 1)
  | VBool b => Ok (VNum (if b then 2 else 1))
  | VNum n => Ok (VNum (n + 1))
  | VStr s => Ok (VStr (s +:+ "1"))
  | VBuiltin k => Ok (VStr (builtin_text k +:+ "1"))
  | VUndefined | VArr _ | VObj _ => Unmodelled
  end.

(** [o[k] = v] on a plain object: the members of [Object.prototype] are
    writable data properties, so the write makes or updates an own
    property, except that, without an own [__proto__], the write goes to
    the inherited setter, which ignores a primitive (and would change
    the prototype otherwise). *)
Definition obj_set (own : gmap string jsval) (k : string) (v : jsval)
  : res (gmap string jsval) :=
  if String.eqb k "__proto__" && bool_decide (own !! k = None) then
    match v with
    | VArr _ | VObj _ | VBuiltin _ | VNull => Unmodelled
    | _ => Ok own
    end
  else Ok (<[k := v]> own).

End JS.
Export JS.

(** ** Element trees *)

(** What a component returns.  [Expr v] is a JSX expression container
    whose expression evaluated to [v]; React paints nothing for
    [undefined], [null] and booleans.  [LocaleString v] stands for the
    string [v.toLocaleString()] and [ToFixed d a b] for the string
    [(a / b).toFixed(d)]: both texts are the host's, the tree keeps their
    operands.  [Items] is an array of elements used as a child, as [map]
    returns it.  An element without a [className] has the empty one;
    [style] props are presentational and left out. *)
#[warnings="-register-all"] Inductive node :=
| Text (s : string)
| Expr (v : jsval)
| LocaleString (v : jsval)
| ToFixed (digits : nat) (dividend divisor : Z)
| Elem (tag className : string) (children : list node)
| Keyed (key : jsval) (element : node)
| Items (elements : list node)
| Fragment (children : list node).

(** [v.toLocaleString()] *)
Definition toLocaleString (v : jsval) : res node :=
  match v with
  | VUndefined | VNull => Throw TypeError
  | VBool _ | VNum _ | VStr _ => Ok (LocaleString v)
  | VArr _ | VObj _ | VBuiltin _ => Unmodelled
  end.

(** [(a / b).toFixed(1)] *)
Definition quotient_toFixed1 (a b : jsval) : res node :=
  x ← to_number a; y ← to_number b; Ok (ToFixed 1 x y).

(** ** components/Dashboard.js *)

Definition stat_card (label : string) (value : node) : node :=
  Elem "div" "stat-card"
    [ Elem "div" "stat-label" [Text label];
      Elem "div" "stat-value" [value] ].

(** Lines 27 and 32: [liveData ? liveData.k : stats.k]. *)
Definition queue_depth (k : string) (stats liveData : jsval) : res jsval :=
  if truthy liveData then get liveData k else get stats k.

(** Lines 38-41. *)
Definition avg_detections_per_frame (stats : jsval) : res node :=
  frames ← get stats "total_frames_processed";
  positive ← gt0 frames;
  if positive : bool then
    detections ← get stats "total_detections";
    frames' ← get stats "total_frames_processed";
    quotient_toFixed1 detections frames'
  else Ok (Expr (VStr "0.0")).

Definition Dashboard (stats liveData : jsval) : res node :=
  body ←
    (if truthy stats then
       total_frames ← get stats "total_frames_processed" ≫= toLocaleString;
       total_detections ← get stats "total_detections" ≫= toLocaleString;
       active ← get stats "active_streams";
       frame_queue ← queue_depth "frame_queue_size" stats liveData;
       results_queue ← queue_depth "results_queue_size" stats liveData;
       average ← avg_detections_per_frame stats;
       Ok (Elem "div" "stat-grid"
             [ stat_card "Total Frames" total_frames;
               stat_card "Total Detections" total_detections;
               stat_card "Active Streams" (Expr active);
               stat_card "Frame Queue" (Expr frame_queue);
               stat_card "Results Queue" (Expr results_queue);
               stat_card "Avg Detections/Frame" average ])
     else Ok (Elem "div" "no-data" [Text "Loading system stats..."]));
  Ok (Elem "div" "card"
        [ Elem "h2" "" [Text "📊 System Dashboard"]; body ]).

(** ** components/SystemStats.js *)

(** Lines 131-144: one entry of [streams.map]. *)
Definition stream_item (stream : jsval) : res node :=
  id ← get stream "id";
  stream_id ← get stream "stream_id";
  status ← get stream "status";
  frames ← get stream "frames_processed" ≫= toLocaleString;
  detections ← get stream "total_detections" ≫= toLocaleString;
  source ← get stream "video_source";
  Ok (Keyed id
        (Elem "div" "detection-item"
           [ Elem "div" "detection-header"
               [ Elem "span" "" [Elem "strong" "" [Expr stream_id]];
                 Elem "span" "object-badge" [Expr status] ];
             Elem "div" ""
               [ Elem "div" "" [Text "Frames: "; frames];
                 Elem "div" "" [Text "Detections: "; detections];
                 Elem "div" "" [Text "Source: "; Expr source] ] ])).

(** Lines 130-148: [streams && streams.length > 0 ? streams.map(..) : ..].
    Only an array has a [map] method. *)
Definition active_streams (streams : jsval) : res node :=
  nonempty ←
    (if truthy streams then get streams "length" ≫= gt0 else Ok false);
  if nonempty : bool then
    match streams with
    | VArr items => Items <$> mapM stream_item items
    | _ => Throw TypeError
    end
  else Ok (Elem "div" "no-data" [Text "No active streams"]).

(** Lines 162-165 and 175-178:
    [(liveData?.k || stats.k) === 0 ? '✅ Healthy' : '⚠️ Backlog']. *)
Definition queue_health (k : string) (stats liveData : jsval) : res jsval :=
  depth ← or_else (get_opt liveData k) (get stats k);
  Ok (VStr (if is_zero depth then "✅ Healthy" else "⚠️ Backlog")).

Definition queue_card (label k : string) (stats liveData : jsval) : res node :=
  depth ← queue_depth k stats liveData;
  health ← queue_health k stats liveData;
  Ok (Elem "div" "stat-card"
        [ Elem "div" "stat-label" [Text label];
          Elem "div" "stat-value" [Expr depth];
          Elem "div" "" [Expr health] ]).

(** Lines 150-183: [stats && (<>...</>)]. *)
Definition queue_section (stats liveData : jsval) : res node :=
  if truthy stats then
    frame ← queue_card "Frame Queue" "frame_queue_size" stats liveData;
    results ← queue_card "Results Queue" "results_queue_size" stats liveData;
    Ok (Fragment
          [ Elem "h3" "" [Text "Queue Health"];
            Elem "div" "stat-grid" [frame; results] ])
  else Ok (Expr stats).

Definition SystemStats (stats streams liveData : jsval) : res node :=
  let live_indicator :=
    if truthy liveData then
      Elem "div" "live-indicator"
        [ Elem "span" "status-dot connected" []; Text "Live Updates Active" ]
    else Expr liveData in
  roster ← active_streams streams;
  queues ← queue_section stats liveData;
  Ok (Elem "div" "card"
        [ Elem "h2" "" [Text "🖥️ System Status"];
          live_indicator;
          Elem "h3" "" [Text "Active Streams"];
          roster;
          queues ]).

(** ** components/DetectionFeed.js: [getObjectCounts] *)

(** The callback of [forEach] (line 7), on the own properties of [counts]:
    [counts[det.class_name] = (counts[det.class_name] || 0) + 1]. *)
Definition count_detection (counts : gmap string jsval) (det : jsval)
  : res (gmap string jsval) :=
  class_name ← get det "class_name";
  k ← to_key class_name;
  v ← or_else (obj_get counts k) (Ok (VNum 0)) ≫= plus1;
  obj_set counts k v.

Fixpoint forEach (counts : gmap string jsval) (items : list jsval)
  : res (gmap string jsval) :=
  match items with
  | [] => Ok counts
  | det :: rest => counts' ← count_detection counts det; forEach counts' rest
  end.

(** Lines 4-10.  Only an array has a [forEach] method. *)
Definition getObjectCounts (detectionList : jsval) : res jsval :=
  match detectionList with
  | VArr items => VObj <$> forEach ∅ items
  | _ => Throw TypeError
  end.

(** A detection as the interfaces deliver it: [{class_name: label}]. *)
Definition detection (label : string) : jsval :=
  VObj {[ "class_name" := VStr label ]}.

(** ** App.js *)

Module App.

Definition API_URL : string := "http://localhost:8000".
Definition WS_URL : string := "ws://localhost:8000/ws/live".
Definition POLL_MS : N := 2000.

(** The five [useState] cells (lines 10-14); a cell holds what its setter
    was last called with. *)
Record state := {
  stats : jsval;
  streams : jsval;
  recentDetections : jsval;
  liveData : jsval;
  connected : bool
}.

Inductive resource := Stats | Streams | Detections.

#[export] Instance resource_eq_dec : EqDecision resource.
Proof. solve_decision. Defined.

Definition url (r : resource) : string :=
  match r with
  | Stats => API_URL +:+ "/stats"
  | Streams => API_URL +:+ "/streams"
  | Detections => API_URL +:+ "/detections?limit=10"
  end.

Inductive ReadyState := CONNECTING | OPEN | CLOSING | CLOSED.

Inductive level := Log | Error.

#[export] Instance level_eq_dec : EqDecision level.
Proof. solve_decision. Defined.

(** The browser side: the virtual clock, the [setInterval] timer (the
    time of its next tick, [None] once cleared), the socket, the fetches
    in flight, every URL handed to [fetch] and to [new WebSocket] so far
    (oldest first), the console, and the exceptions that left a callback
    uncaught. *)
Record browser := {
  clock : N;
  interval : option N;
  readyState : ReadyState;
  in_flight : list resource;
  requests : list string;
  sockets : list string;
  console : list (level * string);
  uncaught : list exn
}.

Record world := { cells : state; env : browser }.

(** *** State setters *)

Definition setStats (v : jsval) (w : world) : world :=
  {| cells := {| stats := v; streams := streams (cells w);
                 recentDetections := recentDetections (cells w);
                 liveData := liveData (cells w);
                 connected := connected (cells w) |};
     env := env w |}.

Definition setStreams (v : jsval) (w : world) : world :=
  {| cells := {| stats := stats (cells w); streams := v;
                 recentDetections := recentDetections (cells w);
                 liveData := liveData (cells w);
                 connected := connected (cells w) |};
     env := env w |}.

Definition setRecentDetections (v : jsval) (w : world) : world :=
  {| cells := {| stats := stats (cells w); streams := streams (cells w);
                 recentDetections := v;
                 liveData := liveData (cells w);
                 connected := connected (cells w) |};
     env := env w |}.

Definition setLiveData (v : jsval) (w : world) : world :=
  {| cells := {| stats := stats (cells w); streams := streams (cells w);
                 recentDetections := recentDetections (cells w);
                 liveData := v;
                 connected := connected (cells w) |};
     env := env w |}.

Definition setConnected (b : bool) (w : world) : world :=
  {| cells := {| stats := stats (cells w); streams := streams (cells w);
                 recentDetections := recentDetections (cells w);
                 liveData := liveData (cells w);
                 connected := b |};
     env := env w |}.

(** *** Browser operations *)

Definition with_env (f : browser → browser) (w : world) : world :=
  {| cells := cells w; env := f (env w) |}.

Definition console_write (l : level) (msg : string) : world → world :=
  with_env (λ b,
    {| clock := clock b; interval := interval b; readyState := readyState b;
       in_flight := in_flight b; requests := requests b; sockets := sockets b;
       console := console b ++ [(l, msg)]; uncaught := uncaught b |}).

Definition escape (e : exn) : world → world :=
  with_env (λ b,
    {| clock := clock b; interval := interval b; readyState := readyState b;
       in_flight := in_flight b; requests := requests b; sockets := sockets b;
       console := console b; uncaught := uncaught b ++ [e] |}).

Definition set_clock (t : N) : world → world :=
  with_env (λ b,
    {| clock := t; interval := interval b; readyState := readyState b;
       in_flight := in_flight b; requests := requests b; sockets := sockets b;
       console := console b; uncaught := uncaught b |}).

Definition set_interval (i : option N) : world → world :=
  with_env (λ b,
    {| clock := clock b; interval := i; readyState := readyState b;
       in_flight := in_flight b; requests := requests b; sockets := sockets b;
       console := console b; uncaught := uncaught b |}).

Definition set_readyState (s : ReadyState) : world → world :=
  with_env (λ b,
    {| clock := clock b; interval := interval b; readyState := s;
       in_flight := in_flight b; requests := requests b; sockets := sockets b;
       console := console b; uncaught := uncaught b |}).

Definition set_in_flight (l : list resource) : world → world :=
  with_env (λ b,
    {| clock := clock b; interval := interval b; readyState := readyState b;
       in_flight := l; requests := requests b; sockets := sockets b;
       console := console b; uncaught := uncaught b |}).

(** [fetch(url r)]: the request leaves and stays in flight until it
    settles. *)
Definition fetch (r : resource) : world → world :=
  with_env (λ b,
    {| clock := clock b; interval := interval b; readyState := readyState b;
       in_flight := in_flight b ++ [r]; requests := requests b ++ [url r];
       sockets := sockets b; console := console b; uncaught := uncaught b |}).

(** [new WebSocket(WS_URL)] *)
Definition new_WebSocket : world → world :=
  with_env (λ b,
    {| clock := clock b; interval := interval b; readyState := CONNECTING;
       in_flight := in_flight b; requests := requests b;
       sockets := sockets b ++ [WS_URL];
       console := console b; uncaught := uncaught b |}).

(** *** The three fetchers (lines 59-87) *)

(** How a [fetch] settles: the promise rejects, or a response arrives
    whose [json()] either resolves to the parsed body or rejects.  The
    source never reads [status]. *)
Inductive fetch_outcome :=
| NetworkError
| Response (status : Z) (json : option jsval).

Definition setter (r : resource) : jsval → world → world :=
  match r with
  | Stats => setStats
  | Streams => setStreams
  | Detections => setRecentDetections
  end.

Definition catch_message (r : resource) : string :=
  match r with
  | Stats => "Error fetching stats:"
  | Streams => "Error fetching streams:"
  | Detections => "Error fetching detections:"
  end.

(** The part of the [async] function after its [await]s: the [try] body
    when both promises resolve, the [catch] otherwise. *)
Definition settled (r : resource) (o : fetch_outcome) (w : world) : world :=
  match o with
  | Response _ (Some data) => setter r data w
  | Response _ None | NetworkError => console_write Error (catch_message r) w
  end.

Definition fetchStats : world → world := fetch Stats.
Definition fetchStreams : world → world := fetch Streams.
Definition fetchRecentDetections : world → world := fetch Detections.

(** The callback of [setInterval] (lines 21-25), and the same three calls
    made once at mount (lines 17-19). *)
Definition poll (w : world) : world :=
  fetchRecentDetections (fetchStreams (fetchStats w)).

(** *** The WebSocket callbacks (lines 33-50) *)

Definition onopen (w : world) : world :=
  setConnected true (console_write Log "WebSocket connected" w).

(** [data] is what [JSON.parse(event.data)] makes of the frame: [None]
    when it throws, and then the exception leaves the callback. *)
Definition onmessage (data : option jsval) (w : world) : world :=
  match data with
  | Some v => setLiveData v w
  | None => escape SyntaxError w
  end.

Definition onclose (w : world) : world :=
  setConnected false (console_write Log "WebSocket disconnected" w).

Definition onerror (w : world) : world :=
  console_write Error "WebSocket error:" w.

(** *** Mount and unmount *)

Definition initial : world :=
  {| cells := {| stats := VNull; streams := VArr [];
                 recentDetections := VArr []; liveData := VNull;
                 connected := false |};
     env := {| clock := 0%N; interval := None; readyState := CLOSED;
               in_flight := []; requests := []; sockets := [];
               console := []; uncaught := [] |} |}.

(** The bodies of the two effects, in order. *)
Definition mount (w : world) : world :=
  let w1 := poll w in
  let w2 := set_interval (Some (clock (env w1) + POLL_MS)%N) w1 in
  new_WebSocket w2.

(** The two cleanups: [clearInterval(interval)], then [ws.close()] when
    the socket is open. *)
Definition unmount (w : world) : world :=
  let w1 := set_interval None w in
  match readyState (env w1) with
  | OPEN => set_readyState CLOSING w1
  | _ => w1
  end.

(** *** The event loop *)

(** What the browser can deliver.  [Elapse ms] lets virtual time pass and
    fires every tick of the timer that falls due; a fetch settles only
    while it is in flight; [WsFail] is a transport failure, which fires
    [error] and then [close]. *)
Inductive event :=
| Elapse (ms : N)
| Settle (r : resource) (o : fetch_outcome)
| WsOpen
| WsMessage (data : option jsval)
| WsClose
| WsFail
| Unmount.

Fixpoint remove_first (r : resource) (l : list resource) : list resource :=
  match l with
  | [] => []
  | x :: l' => if decide (x = r) then l' else x :: remove_first r l'
  end.

Definition elapse (ms : N) (w : world) : world :=
  let now := (clock (env w) + ms)%N in
  match interval (env w) with
  | Some due =>
      if (due <=? now)%N then
        let ticks := ((now - due) / POLL_MS + 1)%N in
        set_interval (Some (due + ticks * POLL_MS)%N)
          (set_clock now (N.iter ticks poll w))
      else set_clock now w
  | None => set_clock now w
  end.

(** The callback that runs on an event, and what it calls: the cells
    record the setter calls as such.  What React makes of them, on a
    component that may be gone, is [deliver] further down. *)
Definition step (w : world) (e : event) : world :=
  match e with
  | Elapse ms => elapse ms w
  | Settle r o =>
      if bool_decide (r ∈ in_flight (env w))
      then settled r o (set_in_flight (remove_first r (in_flight (env w))) w)
      else w
  | WsOpen =>
      match readyState (env w) with
      | CONNECTING => onopen (set_readyState OPEN w)
      | _ => w
      end
  | WsMessage data =>
      match readyState (env w) with
      | OPEN => onmessage data w
      | _ => w
      end
  | WsClose =>
      match readyState (env w) with
      | CLOSED => w
      | _ => onclose (set_readyState CLOSED w)
      end
  | WsFail =>
      match readyState (env w) with
      | CLOSED => w
      | _ => onclose (onerror (set_readyState CLOSED w))
      end
  | Unmount => unmount w
  end.

Definition run (w : world) (evs : list event) : world := foldl step w evs.

(** The dashboard right after it is mounted. *)
Definition mounted : world := mount initial.

End App.

Import App.

(** ** Reading a rendered tree *)

(** The children of every [stat-card] element of a tree, outermost first. *)
Fixpoint stat_cards (n : node) : list (list node) :=
  match n with
  | Elem _ className children =>
      (if String.eqb className "stat-card" then [children] else [])
      ++ flat_map stat_cards children
  | Keyed _ element => stat_cards element
  | Items children | Fragment children => flat_map stat_cards children
  | Text _ | Expr _ | LocaleString _ | ToFixed _ _ _ => []
  end.

(** What the cards labelled [label] show in their [stat-value]. *)
Definition displayed (label : string) (tree : node) : list node :=
  flat_map
    (λ card,
       match card with
       | Elem _ _ [Text l] :: Elem _ _ value :: _ =>
           if String.eqb label l then value else []
       | _ => []
       end)
    (stat_cards tree).

(** What the cards labelled [label] show under their value (the health
    line of SystemStats). *)
Definition health (label : string) (tree : node) : list node :=
  flat_map
    (λ card,
       match card with
       | [Elem _ _ [Text l]; _; Elem _ _ line] =>
           if String.eqb label l then line else []
       | _ => []
       end)
    (stat_cards tree).

(** The divisor of every division a tree contains. *)
Fixpoint divisors (n : node) : list Z :=
  match n with
  | ToFixed _ _ divisor => [divisor]
  | Elem _ _ children | Items children | Fragment children =>
      flat_map divisors children
  | Keyed _ element => divisors element
  | Text _ | Expr _ | LocaleString _ => []
  end.

(** The depth the health line tests: the live one when it is truthy, the
    snapshot's otherwise. *)
Definition health_depth (k : string) (stats liveData : jsval) : jsval :=
  if truthy (get_opt liveData k) then get_opt liveData k else prop stats k.

(** The state cell a poll writes. *)
Definition cell (r : resource) (s : state) : jsval :=
  match r with
  | Stats => stats s
  | Streams => streams s
  | Detections => recentDetections s
  end.

(** The event is a [/stats] poll that succeeded. *)
Definition stats_polled (e : event) : bool :=
  match e with
  | Settle Stats (Response _ (Some _)) => true
  | _ => false
  end.

(** How many times [onclose] has run, as the console records it. *)
Definition disconnections (w : world) : nat :=
  length (filter (λ entry, entry = (Log, "WebSocket disconnected"))
            (console (env w))).

(** A [/stats] payload with integer fields. *)
Definition snapshot (frames detections active frame_queue results_queue : Z)
  : jsval :=
  VObj {[ "total_frames_processed" := VNum frames;
          "total_detections" := VNum detections;
          "active_streams" := VNum active;
          "frame_queue_size" := VNum frame_queue;
          "results_queue_size" := VNum results_queue ]}.

(** An entry of a [/streams] payload. *)
Definition stream_summary (id : Z) (stream_id status : string)
    (frames detections : Z) (video_source : string) : jsval :=
  VObj {[ "id" := VNum id; "stream_id" := VStr stream_id;
          "status" := VStr status; "frames_processed" := VNum frames;
          "total_detections" := VNum detections;
          "video_source" := VStr video_source ]}.

Definition is_stream_summary (v : jsval) : Prop :=
  ∃ id stream_id status frames detections video_source,
    v = stream_summary id stream_id status frames detections video_source.

(** A push frame of the queue-depth shape. *)
Definition queue_event (frame_queue results_queue : Z) : jsval :=
  VObj {[ "frame_queue_size" := VNum frame_queue;
          "results_queue_size" := VNum results_queue ]}.

(** A push frame of the detection shape. *)
Definition detection_event (stream_id : string) (frame_number : Z)
    (labels : list string) : jsval :=
  VObj {[ "latest_detection" :=
            VObj {[ "stream_id" := VStr stream_id;
                    "frame_number" := VNum frame_number;
                    "detections" := VArr (detection <$> labels) ]} ]}.

(** ** The specification's wording, for comparison *)

Definition has_own (k : string) (v : jsval) : bool :=
  match v with
  | VObj own => bool_decide (is_Some (own !! k))
  | _ => false
  end.

(** "recognized shapes: [{frame_queue_size, results_queue_size}] and
    [{latest_detection: ...}]" *)
Definition queue_kind (v : jsval) : bool :=
  has_own "frame_queue_size" v && has_own "results_queue_size" v.

Definition detection_kind (v : jsval) : bool := has_own "latest_detection" v.

Definition recognized (v : jsval) : bool := queue_kind v || detection_kind v.

(** "read from the LiveEvent if one has been received and is of the
    queue-depth kind; otherwise fall back to the latest StatsSnapshot
    value" *)
Definition spec_queue_depth (k : string) (stats liveData : jsval) : jsval :=
  if truthy liveData && queue_kind liveData then prop liveData k
  else prop stats k.

(** "On failure (network error, non-success status, malformed payload)" *)
Definition spec_poll_failed (o : fetch_outcome) : bool :=
  match o with
  | NetworkError => true
  | Response status None => true
  | Response status (Some _) => negb ((200 <=? status) && (status <=? 299))
  end.

(** "a reconnect attempt is scheduled": some continuation of the run
    opens another socket. *)
Definition spec_reconnect_scheduled (w : world) : Prop :=
  ∃ evs, (length (sockets (env w)) < length (sockets (env (run w evs))))%nat.

(** "a mapping from label to occurrence count" *)
Definition occurrences (label : string) (labels : list string) : Z :=
  Z.of_nat (length (filter (λ l, l = label) labels)).

Definition spec_counts (labels : list string) (counts : gmap string jsval)
  : Prop :=
  ∀ label,
    counts !! label
    = if decide (label ∈ labels)
      then Some (VNum (occurrences label labels)) else None.


(** ** components/DetectionFeed.js: the component *)

(** An ordinary object lists its own keys with the array indices first,
    in ascending order, and then the other strings in the order in which
    they were created; [Object.entries] follows that order.  An array
    index is the canonical decimal form of an integer below 2^32 - 1. *)
Definition digit (c : Ascii.ascii) : option N :=
  let n := Ascii.N_of_ascii c in
  if (48 <=? n)%N && (n <=? 57)%N then Some (n - 48)%N else None.

Fixpoint digits (s : string) (acc : N) : option N :=
  match s with
  | EmptyString => Some acc
  | String c s' => d ← digit c; digits s' (10 * acc + d)%N
  end.

Definition array_index (k : string) : option N :=
  match k with
  | EmptyString => None
  | String c rest =>
      if Ascii.eqb c "0"%char && negb (String.eqb rest "") then None
      else n ← digits k 0; if (n <=? 4294967294)%N then Some n else None
  end.

Definition index_le (a b : N * string) : Prop := (a.1 ≤ b.1)%N.

#[export] Instance index_le_dec : RelDecision index_le.
Proof. intros a b. unfold index_le. apply _. Defined.

Definition own_keys (created : list string) : list string :=
  (merge_sort index_le
     (omap (λ k, (λ i, (i, k)) <$> array_index k) created)).*2
  ++ filter (λ k, array_index k = None) created.

(** The creation order after [counts[k] = v] has led to [counts']: a key
    that has become an own property is created last. *)
Definition created_after (k : string) (counts' : gmap string jsval)
    (created : list string) : list string :=
  if bool_decide (k ∈ created) then created
  else if bool_decide (is_Some (counts' !! k)) then created ++ [k]
  else created.

(** [forEach] of [getObjectCounts], with the creation order of the keys
    of [counts] beside its own properties. *)
Fixpoint forEach_created (counts : gmap string jsval) (created : list string)
    (items : list jsval) : res (gmap string jsval * list string) :=
  match items with
  | [] => Ok (counts, created)
  | det :: rest =>
      counts' ← count_detection counts det;
      k ← get det "class_name" ≫= to_key;
      forEach_created counts' (created_after k counts' created) rest
  end.

(** [Object.entries(getObjectCounts(detectionList))] *)
Definition object_entries (detectionList : jsval)
  : res (list (string * jsval)) :=
  match detectionList with
  | VArr items =>
      r ← forEach_created ∅ [] items;
      Ok (omap (λ k, (λ v, (k, v)) <$> r.1 !! k) (own_keys r.2))
  | _ => Throw TypeError
  end.

(** Lines 24-26 and 46-48: one badge of [.map(([obj, count]) => ...)]. *)
Definition object_badge (entry : string * jsval) : node :=
  Keyed (VStr entry.1)
    (Elem "span" "object-badge"
       [Expr (VStr entry.1); Text ": "; Expr entry.2]).

Definition object_badges (detectionList : jsval) : res node :=
  entries ← object_entries detectionList;
  Ok (Items (object_badge <$> entries)).

(** Lines 16-30: [liveData && liveData.latest_detection && (...)]. *)
Definition live_detection (liveData : jsval) : res node :=
  if truthy liveData then
    latest ← get liveData "latest_detection";
    if truthy latest then
      stream_id ← get latest "stream_id";
      frame_number ← get latest "frame_number";
      badges ← get latest "detections" ≫= object_badges;
      Ok (Elem "div" "detection-item"
            [ Elem "div" "detection-header"
                [ Elem "span" ""
                    [Elem "strong" "" [Text "LIVE: "; Expr stream_id]];
                  Elem "span" "" [Text "Frame "; Expr frame_number] ];
              Elem "div" "detection-objects" [badges] ])
    else Ok (Expr latest)
  else Ok (Expr liveData).

(** Lines 38-54: one entry of [detections.slice(0, 8).map]. *)
Definition detection_item (detection : jsval) : res node :=
  id ← get detection "id";
  stream_id ← get detection "stream_id";
  frame_number ← get detection "frame_number";
  nonempty ←
    (objects ← get detection "detections"; get objects "length" ≫= gt0);
  objects ←
    (if nonempty : bool then get detection "detections" ≫= object_badges
     else Ok (Elem "span" "" [Text "No objects detected"]));
  Ok (Keyed id
        (Elem "div" "detection-item"
           [ Elem "div" "detection-header"
               [ Elem "span" "" [Expr stream_id];
                 Elem "span" "" [Text "Frame "; Expr frame_number] ];
             Elem "div" "detection-objects" [objects] ])).

(** Lines 36-58: [detections && detections.length > 0 ? ... : ...].  Only
    an array has both [slice] and [map]. *)
Definition historical (detections : jsval) : res node :=
  nonempty ←
    (if truthy detections then get detections "length" ≫= gt0 else Ok false);
  if nonempty : bool then
    match detections with
    | VArr items => Items <$> mapM detection_item (take 8 items)
    | _ => Throw TypeError
    end
  else Ok (Elem "div" "no-data" [Text "No detections yet"]).

Definition DetectionFeed (detections liveData : jsval) : res node :=
  live ← live_detection liveData;
  history ← historical detections;
  Ok (Elem "div" "card"
        [ Elem "h2" "" [Text "🔍 Recent Detections"];
          live;
          Elem "h3" "" [Text "Historical"];
          history ]).

(** ** App.js: what [App] returns (lines 89-108) *)

Definition App_view (s : state) : res node :=
  dashboard ← Dashboard (stats s) (liveData s);
  system ← SystemStats (stats s) (streams s) (liveData s);
  feed ← DetectionFeed (recentDetections s) (liveData s);
  Ok (Elem "div" "App"
        [ Elem "header" "App-header"
            [ Elem "h1" "" [Text "🎥 Distributed Video Analytics System"];
              Elem "div" "connection-status"
                [ Elem "span"
                    (if connected s then "status-dot connected"
                     else "status-dot disconnected") [];
                  Expr (VStr (if connected s then "Live" else "Disconnected")) ] ];
          Elem "div" "container"
            [ dashboard; Elem "div" "content-grid" [system; feed] ] ]).

(** ** React's part: the life of the component *)

(** [App] is the root, and nothing above it catches an error.  React
    renders again after an update; when rendering throws, it takes the
    tree down and runs the cleanups of the two effects.  Once the
    component is gone, by a teardown or so, the callbacks still run but
    React ignores what they call the setters with: [page] keeps the state
    the component had when it went. *)
Record component := { page : world; alive : bool }.

(** What React takes as a child: a plain object makes it throw, an array
    is taken entry by entry, and for a function it paints nothing. *)
Fixpoint valid_child (v : jsval) : bool :=
  match v with
  | VObj _ => false
  | VArr items => forallb valid_child items
  | _ => true
  end.

Fixpoint presentable (n : node) : bool :=
  match n with
  | Expr v => valid_child v
  | Elem _ _ children | Items children | Fragment children =>
      forallb presentable children
  | Keyed _ element => presentable element
  | Text _ | LocaleString _ | ToFixed _ _ _ => true
  end.

(** The render after an update: it fails when [App] throws and when
    React meets a child it does not take. *)
Definition rerender (w : world) : res component :=
  match App_view (cells w) with
  | Ok tree =>
      if presentable tree then Ok {| page := w; alive := true |}
      else Ok {| page := unmount w; alive := false |}
  | Throw _ => Ok {| page := unmount w; alive := false |}
  | Unmodelled => Unmodelled
  end.

Definition deliver (c : component) (e : event) : res component :=
  match alive c, e with
  | true, Unmount => Ok {| page := unmount (page c); alive := false |}
  | true, _ => rerender (step (page c) e)
  | false, Unmount => Ok c
  | false, _ =>
      Ok {| page := {| cells := cells (page c);
                       env := env (step (page c) e) |};
            alive := false |}
  end.

Fixpoint session (c : component) (evs : list event) : res component :=
  match evs with
  | [] => Ok c
  | e :: rest => c' ← deliver c e; session c' rest
  end.

(** The component right after its first render and its effects. *)
Definition started : component := {| page := mounted; alive := true |}.

(** ** Reading the other parts of a tree *)

(** Every element of class [cls] in a tree, outermost first. *)
Fixpoint elements (cls : string) (n : node) : list node :=
  match n with
  | Elem _ className children =>
      (if String.eqb className cls then [n] else [])
      ++ flat_map (elements cls) children
  | Keyed _ element => elements cls element
  | Items children | Fragment children => flat_map (elements cls) children
  | Text _ | Expr _ | LocaleString _ | ToFixed _ _ _ => []
  end.

(** The [key] of every keyed element of a tree, in order. *)
Fixpoint keys (n : node) : list jsval :=
  match n with
  | Keyed key element => key :: keys element
  | Elem _ _ children | Items children | Fragment children =>
      flat_map keys children
  | Text _ | Expr _ | LocaleString _ | ToFixed _ _ _ => []
  end.

(** An entry of a [/detections] payload. *)
Definition detection_record (id : Z) (stream_id : string) (frame_number : Z)
    (labels : list string) : jsval :=
  VObj {[ "id" := VNum id; "stream_id" := VStr stream_id;
          "frame_number" := VNum frame_number;
          "detections" := VArr (detection <$> labels) ]}.

Definition is_detection_record (v : jsval) : Prop :=
  ∃ id stream_id frame_number labels,
    v = detection_record id stream_id frame_number labels.

(** The three URLs of one round of polling. *)
Definition round : list string := [url Stats; url Streams; url Detections].


(** ** Reading a run *)

(** The virtual time a run lets pass. *)
Definition elapsed (evs : list event) : N :=
  foldr (λ e t, match e with Elapse ms => ms + t | _ => t end)%N 0%N evs.

(** What the polling effect has done by the time the clock shows
    [clock]: one round at mount and one per elapsed period. *)
Definition on_schedule (w : world) : Prop :=
  let rounds := (clock (env w) / POLL_MS + 1)%N in
  requests (env w) = mjoin (replicate (N.to_nat rounds) round) ∧
  interval (env w) = Some (rounds * POLL_MS)%N.

(** The bodies that responses for the resource [r] carry in a run, and
    the frames that decode. *)
Definition bodies (r : resource) (evs : list event) : list jsval :=
  omap (λ e, match e with
             | Settle r' (Response _ (Some v)) =>
                 if decide (r' = r) then Some v else None
             | _ => None
             end) evs.

Definition frames (evs : list event) : list jsval :=
  omap (λ e, match e with WsMessage (Some v) => Some v | _ => None end) evs.

(** The socket has opened and has not closed yet. *)
Definition socket_open (s : ReadyState) : bool :=
  match s with
  | OPEN | CLOSING => true
  | CONNECTING | CLOSED => false
  end.

(** The text of the connection status in the header of [App_view]. *)
Definition status_text (tree : node) : option jsval :=
  match tree with
  | Elem _ _ (Elem _ _ [_; Elem _ _ [_; Expr text]] :: _) => Some text
  | _ => None
  end.

(** ** Reading the result of [getObjectCounts] *)

(** The evaluation returned a value. *)
Definition renders {A} (r : res A) : bool :=
  match r with
  | Ok _ => true
  | Throw _ | Unmodelled => false
  end.

(** How many of the detections carry [label]. *)
Definition times (label : string) (labels : list string) : nat :=
  length (filter (λ l, l = label) labels).

(** One execution of [(v || 0) + 1] on the value [v] found under a key,
    and what [n] of them leave under the key [k] of an object that
    started as [{}]. *)
Definition bump (v : jsval) : jsval :=
  match or_else v (Ok (VNum 0)) ≫= plus1 with
  | Ok v' => v'
  | Throw _ | Unmodelled => VUndefined
  end.

Definition tally (k : string) (n : nat) : jsval :=
  Nat.iter n bump (inherited k).

(** The values [bump] takes and gives: no array and no object. *)
Definition simple (v : jsval) : Prop :=
  match v with
  | VArr _ | VObj _ => False
  | _ => True
  end.

(** What the keys of [counts] hold after the labels [counted]: a label
    seen [n] times holds [tally] of [n], except that [__proto__] never
    becomes a key. *)
Definition tallied (counted : list string) (counts : gmap string jsval)
  : Prop :=
  ∀ k,
    counts !! k
    = if decide (k ∈ counted ∧ k ≠ "__proto__")
      then Some (tally k (times k counted)) else None.

(** The sum of the numbers an object holds. *)
Definition total_count (counts : gmap string jsval) : nat :=
  sum_list_with
    (λ entry : string * jsval,
       match entry.2 with VNum n => Z.to_nat n | _ => 0%nat end)
    (map_to_list counts).

(** What [n] detections without a [class_name] aggregate to. *)
Definition unlabelled (n : nat) : gmap string jsval :=
  match n with
  | O => ∅
  | S _ => {[ "undefined" := VNum (Z.of_nat n) ]}
  end.

(** The distinct labels, in the order in which they first occur. *)
Definition first_seen (labels : list string) : list string :=
  foldl (λ seen l, if bool_decide (l ∈ seen) then seen else seen ++ [l])
    [] labels.

(** ** Payloads of the documented shapes *)

Definition is_snapshot (v : jsval) : Prop :=
  ∃ frames detections active frame_queue results_queue,
    v = snapshot frames detections active frame_queue results_queue.

Definition is_live_frame (v : jsval) : Prop :=
  (∃ frame_queue results_queue, v = queue_event frame_queue results_queue) ∨
  (∃ stream_id frame_number labels,
     v = detection_event stream_id frame_number labels).

(** The event delivers nothing, or a payload of the shape its channel
    documents. *)
Definition well_formed (e : event) : Prop :=
  match e with
  | Settle Stats (Response _ (Some v)) => is_snapshot v
  | Settle Streams (Response _ (Some v)) =>
      ∃ roster, v = VArr roster ∧ Forall is_stream_summary roster
  | Settle Detections (Response _ (Some v)) =>
      ∃ items, v = VArr items ∧ Forall is_detection_record items
  | WsMessage (Some v) => is_live_frame v
  | _ => True
  end.

(** The state holds nothing but such payloads. *)
Definition well_formed_state (s : state) : Prop :=
  (stats s = VNull ∨ is_snapshot (stats s)) ∧
  (∃ roster, streams s = VArr roster ∧ Forall is_stream_summary roster) ∧
  (∃ items, recentDetections s = VArr items ∧
            Forall is_detection_record items) ∧
  (liveData s = VNull ∨ is_live_frame (liveData s)).

(** * Properties *)

(** ** Evaluation lemmas *)

Lemma truthy_not_nullish (v : jsval) : truthy v = true → nullish v = false.
Proof. by destruct v. Qed.

Lemma get_truthy (v : jsval) (k : string) :
  truthy v = true → get v k = Ok (prop v k).
Proof. intros Hv. unfold get. by rewrite truthy_not_nullish. Qed.

Lemma toLocaleString_leaf (v : jsval) (n : node) :
  toLocaleString v = Ok n → n = LocaleString v.
Proof. destruct v; simpl; congruence. Qed.

(** Unfolds the binds of [res] that have a known head. *)
Ltac res_simpl := cbn [mbind res_mbind fmap res_fmap res_bind].

(** Case analysis on the outcome of a sub-evaluation [m], keeping the
    one that returns. *)
Ltac res_destruct m x H :=
  destruct m as [x| |] eqn:H; cbn [res_bind]; [|done..].

(** The average is either the literal ['0.0'] or a quotient by a positive
    divisor. *)
Lemma avg_detections_per_frame_shape (stats : jsval) (average : node) :
  avg_detections_per_frame stats = Ok average →
  average = Expr (VStr "0.0") ∨ ∃ x y, average = ToFixed 1 x y ∧ 0 < y.
Proof.
  unfold avg_detections_per_frame, quotient_toFixed1, get.
  destruct (nullish stats); [done|]. res_simpl.
  destruct (prop stats "total_frames_processed") as [| |[]|n| | | |];
    cbn [gt0 res_bind to_number]; try done; try (intros [= <-]; by left).
  - res_destruct (to_number (prop stats "total_detections")) x Hx.
    intros [= <-]. right. by exists x, 1.
  - destruct (0 <? n) eqn:Hn; [|intros [= <-]; by left].
    res_destruct (to_number (prop stats "total_detections")) x Hx.
    intros [= <-]. right. exists x, n. split; [done|]. by apply Z.ltb_lt.
Qed.

Lemma avg_detections_per_frame_leaf (stats : jsval) (average : node) :
  avg_detections_per_frame stats = Ok average → stat_cards average = [].
Proof.
  intros [->|(x & y & -> & _)]%avg_detections_per_frame_shape; done.
Qed.

Lemma stream_item_cards (stream : jsval) (item : node) :
  stream_item stream = Ok item → stat_cards item = [].
Proof.
  unfold stream_item, get. destruct (nullish stream); [done|]. res_simpl.
  res_destruct (toLocaleString (prop stream "frames_processed")) f Hf.
  res_destruct (toLocaleString (prop stream "total_detections")) d Hd.
  apply toLocaleString_leaf in Hf, Hd. subst. by intros [= <-].
Qed.

Lemma mapM_stream_item_cards (items : list jsval) (roster : list node) :
  mapM stream_item items = Ok roster → flat_map stat_cards roster = [].
Proof.
  revert roster. induction items as [|x items IH]; intros roster; simpl.
  - by intros [= <-].
  - res_simpl. res_destruct (stream_item x) y Hy.
    res_destruct (mapM stream_item items) ys Hys.
    intros [= <-]. simpl. by rewrite (stream_item_cards _ _ Hy), IH.
Qed.

(** The stream roster holds no stat card. *)
Lemma active_streams_cards (streams : jsval) (roster : node) :
  active_streams streams = Ok roster → stat_cards roster = [].
Proof.
  unfold active_streams. res_simpl.
  destruct (if truthy streams then _ else _) as [[|]| |];
    cbn [res_bind]; try done.
  - destruct streams; try done.
    res_destruct (mapM stream_item xs) items Hitems.
    intros [= <-]. by apply mapM_stream_item_cards in Hitems.
  - by intros [= <-].
Qed.

(** With a snapshot in [stats], the reads of [stats] cannot throw, and
    the two components return trees of a fixed shape. *)
Section Rendered.

Context (stats liveData : jsval) (Hstats : truthy stats = true).

(** The reading the queue cards show: [liveData] as soon as there is
    one, of whatever shape. *)
Let source : jsval := if truthy liveData then liveData else stats.

Lemma queue_depth_source (k : string) :
  queue_depth k stats liveData = Ok (prop source k).
Proof.
  unfold queue_depth, source.
  destruct (truthy liveData) eqn:Hl; by apply get_truthy.
Qed.

Lemma queue_health_rendered (k : string) :
  queue_health k stats liveData
  = Ok (VStr (if is_zero (health_depth k stats liveData)
              then "✅ Healthy" else "⚠️ Backlog")).
Proof.
  unfold queue_health, or_else, health_depth.
  rewrite get_truthy by done.
  by destruct (truthy (get_opt liveData k)).
Qed.

Lemma Dashboard_rendered (tree : node) :
  Dashboard stats liveData = Ok tree →
  ∃ average,
    avg_detections_per_frame stats = Ok average ∧
    tree =
      Elem "div" "card"
        [ Elem "h2" "" [Text "📊 System Dashboard"];
          Elem "div" "stat-grid"
            [ stat_card "Total Frames"
                (LocaleString (prop stats "total_frames_processed"));
              stat_card "Total Detections"
                (LocaleString (prop stats "total_detections"));
              stat_card "Active Streams" (Expr (prop stats "active_streams"));
              stat_card "Frame Queue" (Expr (prop source "frame_queue_size"));
              stat_card "Results Queue"
                (Expr (prop source "results_queue_size"));
              stat_card "Avg Detections/Frame" average ] ].
Proof.
  unfold Dashboard. rewrite Hstats.
  rewrite !(get_truthy stats), !queue_depth_source by done. res_simpl.
  res_destruct (toLocaleString (prop stats "total_frames_processed")) f Hf.
  res_destruct (toLocaleString (prop stats "total_detections")) d Hd.
  res_destruct (avg_detections_per_frame stats) average Ha.
  apply toLocaleString_leaf in Hf, Hd. subst f d.
  intros [= <-]. by exists average.
Qed.

Lemma SystemStats_rendered (streams : jsval) (tree : node) :
  SystemStats stats streams liveData = Ok tree →
  ∃ live roster,
    stat_cards live = [] ∧ stat_cards roster = [] ∧
    tree =
      Elem "div" "card"
        [ Elem "h2" "" [Text "🖥️ System Status"];
          live;
          Elem "h3" "" [Text "Active Streams"];
          roster;
          Fragment
            [ Elem "h3" "" [Text "Queue Health"];
              Elem "div" "stat-grid"
                [ Elem "div" "stat-card"
                    [ Elem "div" "stat-label" [Text "Frame Queue"];
                      Elem "div" "stat-value"
                        [Expr (prop source "frame_queue_size")];
                      Elem "div" ""
                        [Expr (VStr (if is_zero (health_depth "frame_queue_size"
                                                   stats liveData)
                                     then "✅ Healthy" else "⚠️ Backlog"))] ];
                  Elem "div" "stat-card"
                    [ Elem "div" "stat-label" [Text "Results Queue"];
                      Elem "div" "stat-value"
                        [Expr (prop source "results_queue_size")];
                      Elem "div" ""
                        [Expr (VStr (if is_zero (health_depth "results_queue_size"
                                                   stats liveData)
                                     then "✅ Healthy" else "⚠️ Backlog"))] ] ] ] ].
Proof.
  unfold SystemStats, queue_section, queue_card. rewrite Hstats.
  rewrite !queue_depth_source, !queue_health_rendered. res_simpl.
  res_destruct (active_streams streams) roster Hr.
  intros [= <-]. eexists _, roster. split; [|split; [|done]].
  - by destruct (truthy liveData).
  - by apply active_streams_cards in Hr.
Qed.

End Rendered.

(** ** Integer totals *)

Lemma numeric_field_truthy (stats : jsval) (n : Z) :
  prop stats "total_frames_processed" = VNum n → truthy stats = true.
Proof. by destruct stats. Qed.

Lemma avg_detections_per_frame_integers (stats : jsval) (detections frames : Z) :
  prop stats "total_detections" = VNum detections →
  prop stats "total_frames_processed" = VNum frames →
  avg_detections_per_frame stats
  = Ok (if 0 <? frames then ToFixed 1 detections frames
        else Expr (VStr "0.0")).
Proof.
  intros Hd Hf. unfold avg_detections_per_frame, quotient_toFixed1.
  rewrite !get_truthy by eauto using numeric_field_truthy.
  rewrite Hd, Hf. simpl. by destruct (0 <? frames).
Qed.

(** With integer totals in [stats] the Dashboard always renders, to this
    tree. *)
Lemma Dashboard_integers (stats liveData : jsval) (detections frames : Z) :
  prop stats "total_detections" = VNum detections →
  prop stats "total_frames_processed" = VNum frames →
  Dashboard stats liveData
  = Ok (Elem "div" "card"
          [ Elem "h2" "" [Text "📊 System Dashboard"];
            Elem "div" "stat-grid"
              [ stat_card "Total Frames" (LocaleString (VNum frames));
                stat_card "Total Detections" (LocaleString (VNum detections));
                stat_card "Active Streams" (Expr (prop stats "active_streams"));
                stat_card "Frame Queue"
                  (Expr (prop (if truthy liveData then liveData else stats)
                           "frame_queue_size"));
                stat_card "Results Queue"
                  (Expr (prop (if truthy liveData then liveData else stats)
                           "results_queue_size"));
                stat_card "Avg Detections/Frame"
                  (if 0 <? frames then ToFixed 1 detections frames
                   else Expr (VStr "0.0")) ] ]).
Proof.
  intros Hd Hf.
  assert (truthy stats = true) as Hs by eauto using numeric_field_truthy.
  unfold Dashboard. rewrite Hs.
  rewrite (avg_detections_per_frame_integers _ _ _ Hd Hf).
  rewrite !queue_depth_source, !(get_truthy stats) by done.
  by rewrite Hd, Hf.
Qed.

(** ** Well-formed payloads render *)

Lemma stream_item_renders (stream : jsval) :
  is_stream_summary stream → ∃ item, stream_item stream = Ok item.
Proof. intros (id & sid & st & f & d & src & ->). by eexists. Qed.

Lemma active_streams_renders (roster : list jsval) :
  Forall is_stream_summary roster →
  ∃ tree, active_streams (VArr roster) = Ok tree.
Proof.
  intros Hroster. unfold active_streams.
  cbn [truthy get nullish prop String.eqb Ascii.eqb Bool.eqb].
  res_simpl. cbn [gt0 res_bind].
  destruct (0 <? Z.of_nat (length roster)); [|by eexists].
  assert (∃ items, mapM stream_item roster = Ok items) as [items ->];
    [|by eexists].
  induction Hroster as [|x roster Hx _ [items IH]]; [by eexists|].
  destruct (stream_item_renders x Hx) as [item Hitem].
  exists (item :: items). simpl. res_simpl. by rewrite Hitem, IH.
Qed.

(** A snapshot with integer fields and a roster of stream summaries
    render, whatever the live reading. *)
Lemma views_render (frames detections active frame_queue results_queue : Z)
    (roster : list jsval) (liveData : jsval) :
  Forall is_stream_summary roster →
  let stats := snapshot frames detections active frame_queue results_queue in
  ∃ dashboard system,
    Dashboard stats liveData = Ok dashboard ∧
    SystemStats stats (VArr roster) liveData = Ok system.
Proof.
  intros [tree Htree]%active_streams_renders stats.
  eexists _, _. split.
  - by apply (Dashboard_integers _ _ detections frames).
  - unfold SystemStats, queue_section, queue_card. rewrite Htree.
    change (truthy stats) with true. cbv iota.
    by rewrite !queue_depth_source, !queue_health_rendered.
Qed.

(** ** Merged view: queue depths and totals *)

(** C1, as stated, fails: after a push frame of the detection shape, the
    specification's rule reads the snapshot's depth 3, while both
    components show [liveData.frame_queue_size], which is [undefined]. *)
Lemma queue_depth_kind_counterexample :
  let stats := snapshot 100 50 2 3 1 in
  let liveData := detection_event "cam-1" 7 ["car"] in
  spec_queue_depth "frame_queue_size" stats liveData = VNum 3 ∧
  displayed "Frame Queue" <$> Dashboard stats liveData = Ok [Expr VUndefined] ∧
  displayed "Frame Queue" <$> SystemStats stats (VArr []) liveData
  = Ok [Expr VUndefined].
Proof. by vm_compute. Qed.

(** C1 (amended): in every rendered view with a snapshot, the frame-queue
    and results-queue cards of Dashboard and of SystemStats show the live
    reading's [frame_queue_size] / [results_queue_size] whenever a live
    reading is there (truthy), whatever its shape, and the snapshot's
    otherwise; total frames, total detections and active streams always
    come from the snapshot. *)
Theorem displayed_queue_depths
    (stats streams liveData : jsval) (dashboard system : node) :
  truthy stats = true →
  Dashboard stats liveData = Ok dashboard →
  SystemStats stats streams liveData = Ok system →
  let source := if truthy liveData then liveData else stats in
  displayed "Frame Queue" dashboard = [Expr (prop source "frame_queue_size")] ∧
  displayed "Results Queue" dashboard = [Expr (prop source "results_queue_size")] ∧
  displayed "Frame Queue" system = [Expr (prop source "frame_queue_size")] ∧
  displayed "Results Queue" system = [Expr (prop source "results_queue_size")] ∧
  displayed "Total Frames" dashboard
  = [LocaleString (prop stats "total_frames_processed")] ∧
  displayed "Total Detections" dashboard
  = [LocaleString (prop stats "total_detections")] ∧
  displayed "Active Streams" dashboard = [Expr (prop stats "active_streams")].
Proof.
  intros Hs Hd Hy source.
  destruct (Dashboard_rendered _ _ Hs _ Hd) as (a & Ha & ->).
  destruct (SystemStats_rendered _ _ Hs _ _ Hy) as (live & roster & Hl & Hr & ->).
  apply avg_detections_per_frame_leaf in Ha.
  unfold displayed. simpl. rewrite Ha, Hl, Hr. by repeat split.
Qed.

Lemma displayed_queue_depths_witness :
  ∃ dashboard system,
    Dashboard (snapshot 100 50 2 3 1) (queue_event 7 1) = Ok dashboard ∧
    SystemStats (snapshot 100 50 2 3 1) (VArr []) (queue_event 7 1) = Ok system ∧
    displayed "Frame Queue" dashboard = [Expr (VNum 7)] ∧
    displayed "Frame Queue" system = [Expr (VNum 7)] ∧
    displayed "Total Frames" dashboard = [LocaleString (VNum 100)].
Proof.
  eexists _, _. split; [reflexivity|]. split; [reflexivity|].
  destruct (displayed_queue_depths (snapshot 100 50 2 3 1) (VArr [])
              (queue_event 7 1) _ _ eq_refl eq_refl eq_refl)
    as (H1 & _ & H3 & _ & H5 & _).
  exact (conj H1 (conj H3 H5)).
Defined.

(** The scenario of the specification: the snapshot's depth 3 before any
    live reading, the live depth 7 after one, the total still 100. *)
Lemma merged_view_scenario :
  let stats := snapshot 100 50 2 3 1 in
  displayed "Frame Queue" <$> Dashboard stats VNull = Ok [Expr (VNum 3)] ∧
  displayed "Frame Queue" <$> Dashboard stats (queue_event 7 1)
  = Ok [Expr (VNum 7)] ∧
  displayed "Total Frames" <$> Dashboard stats (queue_event 7 1)
  = Ok [LocaleString (VNum 100)].
Proof. by vm_compute. Qed.

(** ** Average detections per frame *)

(** C7: for non-negative integer totals, the Dashboard renders and its
    'Avg Detections/Frame' card shows the quotient
    total_detections / total_frames_processed (to one decimal) when the
    frame count is positive and the literal '0.0' when it is zero; no
    division in the rendered tree has a zero divisor. *)
Theorem average_detections_per_frame
    (stats liveData : jsval) (detections frames : Z) :
  0 ≤ detections → 0 ≤ frames →
  prop stats "total_detections" = VNum detections →
  prop stats "total_frames_processed" = VNum frames →
  ∃ tree,
    Dashboard stats liveData = Ok tree ∧
    (0 < frames →
     displayed "Avg Detections/Frame" tree = [ToFixed 1 detections frames]) ∧
    (frames = 0 →
     displayed "Avg Detections/Frame" tree = [Expr (VStr "0.0")]) ∧
    Forall (λ divisor, divisor ≠ 0) (divisors tree).
Proof.
  intros _ Hframes Hd Hf.
  eexists. split; [by apply Dashboard_integers|].
  destruct (0 <? frames) eqn:Hpos.
  - apply Z.ltb_lt in Hpos. split; [reflexivity|]. split; [intros; lia|].
    cbn. repeat constructor. lia.
  - apply Z.ltb_ge in Hpos. split; [intros; lia|]. split; [reflexivity|].
    cbn. constructor.
Qed.

Lemma average_detections_per_frame_witness :
  ∃ tree,
    Dashboard (snapshot 100 50 2 3 1) VNull = Ok tree ∧
    displayed "Avg Detections/Frame" tree = [ToFixed 1 50 100] ∧
    Forall (λ divisor, divisor ≠ 0) (divisors tree).
Proof.
  destruct (average_detections_per_frame (snapshot 100 50 2 3 1) VNull 50 100)
    as (tree & Ht & Hpos & _ & Hdiv); [lia | lia | reflexivity | reflexivity |].
  exists tree. split; [exact Ht|]. split; [apply Hpos; lia | exact Hdiv].
Defined.

(** X11.  Whatever the snapshot holds, a quotient the Dashboard shows
    has a positive divisor. *)
Lemma Dashboard_divisors (stats liveData : jsval) (tree : node) :
  Dashboard stats liveData = Ok tree →
  Forall (λ divisor, 0 < divisor) (divisors tree).
Proof.
  destruct (truthy stats) eqn:Hs.
  - intros Ht. destruct (Dashboard_rendered _ _ Hs _ Ht) as (a & Ha & ->).
    apply avg_detections_per_frame_shape in Ha as [->|(x & y & -> & Hy)];
      cbn; by repeat constructor.
  - unfold Dashboard. rewrite Hs. intros [= <-]. cbn. constructor.
Qed.

Lemma average_of_no_frames :
  displayed "Avg Detections/Frame" <$> Dashboard (snapshot 0 0 0 0 0) VNull
  = Ok [Expr (VStr "0.0")].
Proof. by vm_compute. Qed.

(** ** Object counts *)

Lemma occurrences_snoc (label k : string) (labels : list string) :
  occurrences label (labels ++ [k])
  = occurrences label labels + (if decide (k = label) then 1 else 0).
Proof.
  unfold occurrences. rewrite filter_app, length_app.
  rewrite filter_cons, filter_nil. destruct (decide (k = label)); simpl; lia.
Qed.

Lemma occurrences_pos (label : string) (labels : list string) :
  label ∈ labels → 0 < occurrences label labels.
Proof.
  intros Hin. unfold occurrences.
  assert (label ∈ filter (λ l, l = label) labels) as Hf
    by (by apply list_elem_of_filter).
  destruct (filter _ labels); [by apply elem_of_nil in Hf | simpl; lia].
Qed.

Lemma occurrences_absent (label : string) (labels : list string) :
  label ∉ labels → occurrences label labels = 0.
Proof.
  unfold occurrences. induction labels as [|x labels IH]; [done|].
  intros [Hx Hl]%not_elem_of_cons.
  rewrite filter_cons_False by congruence. by apply IH.
Qed.

Lemma detection_class_name (label : string) :
  get (detection label) "class_name" = Ok (VStr label).
Proof. reflexivity. Qed.

Lemma spec_counts_insert (counted : list string) (k : string)
    (counts : gmap string jsval) :
  spec_counts counted counts →
  spec_counts (counted ++ [k])
    (<[k := VNum (occurrences k counted + 1)]> counts).
Proof.
  intros Hc l. rewrite occurrences_snoc.
  destruct (decide (k = l)) as [->|Hne].
  - rewrite lookup_insert_eq, decide_True; [done|].
    apply elem_of_app. right. by apply list_elem_of_singleton.
  - rewrite lookup_insert_ne, (Hc l), Z.add_0_r by done.
    destruct (decide (l ∈ counted)) as [Hin|Hnin].
    + rewrite decide_True; [done|]. apply elem_of_app. by left.
    + rewrite decide_False; [done|].
      intros [?|?%list_elem_of_singleton]%elem_of_app; congruence.
Qed.

(** One pass of the callback on a label that [Object.prototype] does not
    define. *)
Lemma count_detection_fresh (counted : list string) (k : string)
    (counts : gmap string jsval) :
  k ∉ object_prototype →
  spec_counts counted counts →
  ∃ counts',
    count_detection counts (detection k) = Ok counts' ∧
    spec_counts (counted ++ [k]) counts'.
Proof.
  intros Hk Hc. unfold count_detection.
  rewrite detection_class_name. cbn [mbind res_mbind res_bind to_key].
  assert (String.eqb k "__proto__" = false) as Hproto.
  { apply String.eqb_neq. intros ->. apply Hk.
    unfold object_prototype. repeat (constructor; try done). }
  assert (inherited k = VUndefined) as Hinh.
  { unfold inherited. by rewrite bool_decide_eq_false_2. }
  unfold obj_get, obj_set. rewrite Hproto, (Hc k). cbn [andb].
  eexists; split; [|by apply spec_counts_insert].
  destruct (decide (k ∈ counted)) as [Hin|Hnin].
  - pose proof (occurrences_pos _ _ Hin) as Hpos.
    unfold or_else. cbn [truthy].
    rewrite (proj2 (Z.eqb_neq _ 0)) by lia. done.
  - rewrite Hinh, (occurrences_absent k counted) by done. done.
Qed.

Lemma forEach_fresh (labels counted : list string) (counts : gmap string jsval) :
  Forall (λ k, k ∉ object_prototype) labels →
  spec_counts counted counts →
  ∃ counts',
    forEach counts (detection <$> labels) = Ok counts' ∧
    spec_counts (counted ++ labels) counts'.
Proof.
  revert counted counts.
  induction labels as [|k labels IH]; intros counted counts Hks Hc.
  - exists counts. by rewrite app_nil_r.
  - apply Forall_cons in Hks as [Hk Hks].
    destruct (count_detection_fresh counted k counts Hk Hc) as (c1 & Hc1 & Hs1).
    destruct (IH (counted ++ [k]) c1 Hks Hs1) as (c2 & Hc2 & Hs2).
    exists c2. rewrite fmap_cons. cbn [forEach mbind res_mbind].
    rewrite Hc1. cbn [res_bind]. split; [done|].
    by rewrite <-app_assoc in Hs2.
Qed.

(** X16.  Away from the names [Object.prototype] defines, the result
    maps each label to its number of occurrences. *)
Lemma getObjectCounts_fresh (labels : list string) :
  Forall (λ k, k ∉ object_prototype) labels →
  ∃ counts,
    getObjectCounts (VArr (detection <$> labels)) = Ok (VObj counts) ∧
    spec_counts labels counts.
Proof.
  intros Hks.
  destruct (forEach_fresh labels [] ∅ Hks) as (counts & Hc & Hs).
  { intros l. rewrite lookup_empty, decide_False; [done|]. apply not_elem_of_nil. }
  exists counts. split; [|done]. unfold getObjectCounts.
  rewrite Hc. done.
Qed.

Lemma getObjectCounts_empty : getObjectCounts (VArr []) = Ok (VObj ∅).
Proof. reflexivity. Qed.

Lemma getObjectCounts_cars :
  getObjectCounts (VArr (detection <$> ["car"; "car"; "person"]))
  = Ok (VObj {[ "car" := VNum 2; "person" := VNum 1 ]}).
Proof. by vm_compute. Qed.

(** C8: on the label "constructor" the aggregation does not count.  The
    fresh [counts] object inherits [constructor] from [Object.prototype],
    so [counts[k] || 0] is the function [Object], and [+ 1] appends to its
    source text; the specification expects the count 1. *)
Theorem getObjectCounts_inherited_label :
  getObjectCounts (VArr [detection "constructor"])
  = Ok (VObj {[ "constructor" := VStr "function Object() { [native code] }1" ]}) ∧
  occurrences "constructor" ["constructor"] = 1 ∧
  getObjectCounts (VArr [detection "__proto__"]) = Ok (VObj ∅).
Proof. by vm_compute. Qed.

(** ** The event loop: what a step can touch *)

Lemma iter_poll_cells (n : N) (w : world) : cells (N.iter n poll w) = cells w.
Proof. by apply N.iter_invariant; [intros x <-|]. Qed.

Lemma iter_poll_sockets (n : N) (w : world) :
  sockets (env (N.iter n poll w)) = sockets (env w).
Proof. by apply N.iter_invariant; [intros x <-|]. Qed.

Lemma elapse_cells (ms : N) (w : world) : cells (elapse ms w) = cells w.
Proof.
  unfold elapse. destruct (interval (env w)); [|done].
  destruct (_ <=? _)%N; [|done]. simpl. apply iter_poll_cells.
Qed.

Lemma elapse_sockets (ms : N) (w : world) :
  sockets (env (elapse ms w)) = sockets (env w).
Proof.
  unfold elapse. destruct (interval (env w)); [|done].
  destruct (_ <=? _)%N; [|done]. simpl. apply iter_poll_sockets.
Qed.

(** Case analysis on an event [e] delivered in the world [w]: leaves the
    goal for elapsed time, and closes by computation the goals of the
    other events, after splitting on whether the browser delivers them. *)
Ltac event_cases w e :=
  destruct e as [ms|r o| |data| | |]; simpl;
  [ | case_bool_decide; [|done]; by destruct o as [|status [data|]], r
    | by destruct (readyState (env w))
    | by destruct (readyState (env w)), data
    | by destruct (readyState (env w))
    | by destruct (readyState (env w))
    | unfold unmount; simpl; by destruct (readyState (env w)) ].

(** No step ever opens a socket. *)
Lemma step_sockets (w : world) (e : event) :
  sockets (env (step w e)) = sockets (env w).
Proof. event_cases w e. apply elapse_sockets. Qed.

Lemma run_sockets (w : world) (evs : list event) :
  sockets (env (run w evs)) = sockets (env w).
Proof.
  revert w. induction evs as [|e evs IH]; intros w; [done|].
  simpl. by rewrite (IH (step w e)), step_sockets.
Qed.

(** Once the timer is cleared it stays cleared, and no step issues a
    request. *)
Lemma step_cleared (w : world) (e : event) :
  interval (env w) = None →
  interval (env (step w e)) = None ∧
  requests (env (step w e)) = requests (env w).
Proof. intros Hi. event_cases w e. unfold elapse. by rewrite Hi. Qed.

Lemma run_cleared (w : world) (evs : list event) :
  interval (env w) = None →
  interval (env (run w evs)) = None ∧
  requests (env (run w evs)) = requests (env w).
Proof.
  revert w. induction evs as [|e evs IH]; intros w Hi; [done|].
  destruct (step_cleared w e Hi) as [Hi' Hr].
  destruct (IH (step w e) Hi') as [Hi'' Hr'].
  simpl. split; [done|]. by rewrite Hr', Hr.
Qed.

Lemma unmount_clears (w : world) :
  interval (env (unmount w)) = None ∧
  requests (env (unmount w)) = requests (env w) ∧
  in_flight (env (unmount w)) = in_flight (env w) ∧
  cells (unmount w) = cells w.
Proof. unfold unmount. simpl. by destruct (readyState (env w)). Qed.

(** Only a [/stats] poll that succeeds writes [stats]. *)
Lemma step_stats (w : world) (e : event) :
  stats_polled e = false → stats (cells (step w e)) = stats (cells w).
Proof. intros He. event_cases w e. by rewrite elapse_cells. Qed.

Lemma run_stats (w : world) (evs : list event) :
  Forall (λ e, stats_polled e = false) evs →
  stats (cells (run w evs)) = stats (cells w).
Proof.
  revert w. induction evs as [|e evs IH]; intros w Hevs; [done|].
  apply Forall_cons in Hevs as [He Hevs].
  simpl. by rewrite (IH (step w e)), step_stats.
Qed.

(** ** Stopping the poller *)

(** While mounted, the timer does poll: the three requests of the mount,
    then three more per period. *)
Lemma poll_fires_while_mounted :
  length (requests (env mounted)) = 3%nat ∧
  length (requests (env (step mounted (Elapse 1999)))) = 3%nat ∧
  length (requests (env (step mounted (Elapse 2000)))) = 6%nat ∧
  length (requests (env (step mounted (Elapse 7000)))) = 12%nat.
Proof. by vm_compute. Qed.

(** C6: after the cleanup of the polling effect has run, no event, and no
    amount of elapsed time, issues another request; the timer stays
    cleared. *)
Theorem no_fetch_after_stop (w : world) (evs : list event) :
  requests (env (run (step w Unmount) evs)) = requests (env w) ∧
  interval (env (run (step w Unmount) evs)) = None.
Proof.
  destruct (unmount_clears w) as (Hi & Hr & _).
  destruct (run_cleared (unmount w) evs Hi) as [Hi' Hr'].
  simpl. split; [by rewrite Hr', Hr | done].
Qed.

(** ** Failing polls *)

(** C4, as stated, fails: a [/streams] response with status 500 and a JSON
    error body is a failed poll, and its body replaces the stored
    roster. *)
Lemma failed_poll_counterexample :
  let roster :=
    VArr [ VObj {[ "id" := VNum 1; "stream_id" := VStr "cam-1";
                   "status" := VStr "active"; "frames_processed" := VNum 40;
                   "total_detections" := VNum 9;
                   "video_source" := VStr "rtsp://cam-1" ]} ] in
  let failure :=
    Response 500 (Some (VObj {[ "detail" := VStr "Internal Server Error" ]})) in
  let w := step (step mounted (Settle Streams (Response 200 (Some roster))))
             (Elapse 2000) in
  spec_poll_failed failure = true ∧
  Streams ∈ in_flight (env w) ∧
  streams (cells w) = roster ∧
  streams (cells (step w (Settle Streams failure)))
  = VObj {[ "detail" := VStr "Internal Server Error" ]}.
Proof.
  repeat split; try by vm_compute.
  apply (bool_decide_unpack _). by vm_compute.
Qed.

(** What such a body does to the view when it lands in [stats]: the
    Dashboard throws on [stats.total_frames_processed.toLocaleString()]. *)
Lemma error_body_breaks_Dashboard :
  let failure :=
    Response 500 (Some (VObj {[ "detail" := VStr "Internal Server Error" ]})) in
  let w := step mounted (Settle Stats failure) in
  Dashboard (stats (cells w)) (liveData (cells w)) = Throw TypeError.
Proof. by vm_compute. Qed.

(** C4 (amended): a poll of [/stats], [/streams] or [/detections] that
    fails by a network error, or whose body does not parse as JSON,
    leaves all five state cells as they were; its continuation only
    writes one [console.error] line. *)
Theorem failed_poll_keeps_state (w : world) (r : resource) (status : Z) :
  cells (step w (Settle r NetworkError)) = cells w ∧
  cells (step w (Settle r (Response status None))) = cells w ∧
  console (env (settled r NetworkError w))
  = console (env w) ++ [(Error, catch_message r)] ∧
  console (env (settled r (Response status None) w))
  = console (env w) ++ [(Error, catch_message r)].
Proof.
  repeat split; try done; simpl; by case_bool_decide.
Qed.

(** ** Results that arrive after teardown *)



(** A component that is still there at the end of a session has been
    there all along: no teardown, no render error, and every setter call
    has been taken. *)
Lemma deliver_alive (c c' : component) (e : event) :
  deliver c e = Ok c' → alive c' = true →
  alive c = true ∧ e ≠ Unmount ∧ page c' = step (page c) e.
Proof.
  unfold deliver, rerender.
  destruct (alive c) eqn:Hc, e;
    try (destruct (App_view _) as [tree| |]; [destruct (presentable tree)| |]);
    intros [= <-]; simpl; try done; congruence.
Qed.

Lemma session_alive (c c' : component) (evs : list event) :
  session c evs = Ok c' → alive c' = true →
  alive c = true ∧ (Unmount ∉ evs) ∧ page c' = run (page c) evs.
Proof.
  revert c. induction evs as [|e evs IH]; intros c; cbn [session].
  - intros [= <-] Hc. split; [done|]. split; [apply not_elem_of_nil|done].
  - res_simpl. res_destruct (deliver c e) c1 He. intros Hs Hc'.
    destruct (IH c1 Hs Hc') as (Hc1 & Hevs & Hp).
    destruct (deliver_alive c c1 e He Hc1) as (Hc & Hne & Hp1).
    split; [done|]. split; [|by rewrite Hp, Hp1].
    by apply not_elem_of_cons.
Qed.


(** The [/stats] request of the mount is in flight at the teardown; its
    result arrives afterwards, the request settles, and [stats] stays
    [null]. *)
Lemma late_result_discarded_example :
  let late := Settle Stats (Response 200 (Some (snapshot 100 50 2 3 1))) in
  in_flight (env mounted) = [Stats; Streams; Detections] ∧
  (λ c, (in_flight (env (page c)), stats (cells (page c))))
    <$> session started [Unmount; late]
  = Ok ([Streams; Detections], VNull).
Proof. by vm_compute. Qed.

(** ** Push frames *)

(** C3, as stated, fails: a frame of neither recognized shape is not
    dropped; it becomes the live reading. *)
Lemma unrecognized_frame_counterexample :
  let w := step mounted WsOpen in
  let frame := VObj {[ "foo" := VNum 1 ]} in
  recognized frame = false ∧
  liveData (cells w) = VNull ∧
  liveData (cells (step w (WsMessage (Some frame)))) = frame.
Proof. by vm_compute. Qed.

(** What the source does with a frame that fails to decode: the
    [SyntaxError] of [JSON.parse] leaves the callback, and nothing is
    written to the console. *)
Lemma onmessage_malformed (w : world) :
  uncaught (env (onmessage None w)) = uncaught (env w) ++ [SyntaxError] ∧
  console (env (onmessage None w)) = console (env w).
Proof. done. Qed.

(** C3 (amended): a frame that fails to decode is not published and
    changes none of the state cells; a frame that decodes is published as
    the live reading whatever its shape, recognized or not; in both cases
    the connection state and the polled cells stay as they were. *)
Theorem frame_handling (w : world) (data : option jsval) (v : jsval) :
  readyState (env w) = OPEN →
  cells (step w (WsMessage None)) = cells w ∧
  liveData (cells (step w (WsMessage (Some v)))) = v ∧
  connected (cells (step w (WsMessage data))) = connected (cells w) ∧
  stats (cells (step w (WsMessage data))) = stats (cells w) ∧
  streams (cells (step w (WsMessage data))) = streams (cells w) ∧
  recentDetections (cells (step w (WsMessage data)))
  = recentDetections (cells w).
Proof.
  intros Ho. simpl. rewrite Ho. by destruct data.
Qed.

Lemma frame_handling_witness :
  let w := step mounted WsOpen in
  cells (step w (WsMessage None)) = cells w ∧
  liveData (cells (step w (WsMessage (Some (queue_event 7 1)))))
  = queue_event 7 1.
Proof.
  destruct (frame_handling (step mounted WsOpen) None (queue_event 7 1))
    as (H1 & H2 & _); [reflexivity|].
  exact (conj H1 H2).
Defined.

(** ** Disconnection *)

(** C2, as stated, fails: after the channel closes the state is
    disconnected, but no reconnect is scheduled: no continuation of the
    run ever opens a second socket. *)
Lemma no_reconnect_counterexample :
  let w := step (step mounted WsOpen) WsClose in
  connected (cells (step mounted WsOpen)) = true ∧
  connected (cells w) = false ∧
  ¬ spec_reconnect_scheduled w.
Proof.
  repeat split. intros [evs Hevs]. rewrite run_sockets in Hevs. lia.
Qed.

(** The [error] callback alone only logs. *)
Lemma onerror_cells (w : world) : cells (onerror w) = cells w.
Proof. done. Qed.

(** C2 (amended): when the push channel closes, cleanly or after a
    transport error, [connected] becomes false and [onclose] runs exactly
    once; the closed socket delivers no further close; and no reconnect
    is ever attempted: whatever happens next, the only socket is the one
    opened at mount. *)
Theorem close_disconnects_once (w : world) (e : event) (evs : list event) :
  e = WsClose ∨ e = WsFail →
  readyState (env w) ≠ CLOSED →
  let w' := step w e in
  connected (cells w') = false ∧
  disconnections w' = S (disconnections w) ∧
  step w' WsClose = w' ∧ step w' WsFail = w' ∧
  sockets (env (run w' evs)) = sockets (env w).
Proof.
  intros He Hopen w'. subst w'.
  rewrite run_sockets, step_sockets. unfold disconnections.
  destruct He as [-> | ->]; simpl;
    destruct (readyState (env w)); try done; simpl;
    rewrite ?filter_app, ?length_app; repeat split; simpl; lia.
Qed.

Lemma close_disconnects_once_witness :
  let w := step mounted WsOpen in
  connected (cells w) = true ∧
  connected (cells (step w WsFail)) = false ∧
  disconnections (step w WsFail) = 1%nat ∧
  sockets (env (run (step w WsFail) [Elapse 60000; WsOpen])) = [WS_URL].
Proof.
  destruct (close_disconnects_once (step mounted WsOpen) WsFail
              [Elapse 60000; WsOpen])
    as (H1 & H2 & _ & _ & H3); [by right | done |].
  split; [reflexivity|]. exact (conj H1 (conj H2 H3)).
Defined.

(** ** The health line *)

(** The health line reads the snapshot as soon as the live depth is
    falsy, which the depth 0 is, and not only when no reading is there. *)
Lemma health_depth_zero_live (k : string) (stats liveData : jsval) :
  get_opt liveData k = VNum 0 → health_depth k stats liveData = prop stats k.
Proof. intros Hz. unfold health_depth. by rewrite Hz. Qed.

(** In general: a live depth of 0 over a snapshot depth other than 0
    shows the depth 0 with the backlog line under it. *)
Lemma zero_live_depth_backlog (stats streams liveData : jsval) (tree : node) :
  truthy stats = true →
  truthy liveData = true →
  prop liveData "frame_queue_size" = VNum 0 →
  is_zero (prop stats "frame_queue_size") = false →
  SystemStats stats streams liveData = Ok tree →
  displayed "Frame Queue" tree = [Expr (VNum 0)] ∧
  health "Frame Queue" tree = [Expr (VStr "⚠️ Backlog")].
Proof.
  intros Hs Hl Hz Hp Ht.
  destruct (SystemStats_rendered _ _ Hs _ _ Ht) as (live & roster & Hlive & Hr & ->).
  assert (get_opt liveData "frame_queue_size" = VNum 0) as Hopt.
  { unfold get_opt. by rewrite truthy_not_nullish. }
  rewrite (health_depth_zero_live _ _ _ Hopt), Hp, Hl, Hz.
  unfold displayed, health. simpl. by rewrite Hlive, Hr.
Qed.

(** C9: a reachable state, after a snapshot with positive queue depths
    (3 and 1) and then a live reading with both depths 0, in which each
    queue card of SystemStats shows the depth 0 and, under it, the
    backlog line instead of the healthy one. *)
Theorem zero_depth_shows_backlog :
  ∃ evs tree,
    let w := run mounted evs in
    prop (liveData (cells w)) "frame_queue_size" = VNum 0 ∧
    prop (liveData (cells w)) "results_queue_size" = VNum 0 ∧
    prop (stats (cells w)) "frame_queue_size" = VNum 3 ∧
    prop (stats (cells w)) "results_queue_size" = VNum 1 ∧
    SystemStats (stats (cells w)) (streams (cells w)) (liveData (cells w))
    = Ok tree ∧
    displayed "Frame Queue" tree = [Expr (VNum 0)] ∧
    health "Frame Queue" tree = [Expr (VStr "⚠️ Backlog")] ∧
    displayed "Results Queue" tree = [Expr (VNum 0)] ∧
    health "Results Queue" tree = [Expr (VStr "⚠️ Backlog")].
Proof.
  exists [ WsOpen;
           Settle Stats (Response 200 (Some (snapshot 100 50 2 3 1)));
           WsMessage (Some (queue_event 0 0)) ].
  eexists. cbv zeta. repeat split; by vm_compute.
Qed.

(** With no live reading, or a live depth that is not 0, the line follows
    the depth the card shows. *)
Lemma health_line_examples :
  health "Frame Queue"
    <$> SystemStats (snapshot 100 50 2 0 0) (VArr []) VNull
  = Ok [Expr (VStr "✅ Healthy")] ∧
  health "Frame Queue"
    <$> SystemStats (snapshot 100 50 2 0 0) (VArr []) (queue_event 4 0)
  = Ok [Expr (VStr "⚠️ Backlog")] ∧
  health "Frame Queue"
    <$> SystemStats (snapshot 100 50 2 0 0) (VArr []) (queue_event 0 0)
  = Ok [Expr (VStr "✅ Healthy")].
Proof. by vm_compute. Qed.

(** ** Before the first snapshot *)

(** Without a snapshot SystemStats renders no stat card at all. *)
Lemma SystemStats_loading (streams liveData : jsval) (system : node) :
  SystemStats VNull streams liveData = Ok system → stat_cards system = [].
Proof.
  unfold SystemStats. res_simpl.
  res_destruct (active_streams streams) roster Hr.
  intros [= <-]. apply active_streams_cards in Hr.
  destruct (truthy liveData); simpl; by rewrite Hr.
Qed.

(** C10: while [stats] is null the Dashboard is its loading placeholder
    and nothing else, and SystemStats renders no stat card, hence no
    queue depth, whatever live reading has arrived; and along every run
    in which no [/stats] poll has succeeded [stats] is still null, so
    that is what the dashboard shows. *)
Theorem no_queue_depth_before_snapshot
    (streams liveData : jsval) (system : node) (evs : list event) :
  SystemStats VNull streams liveData = Ok system →
  Forall (λ e, stats_polled e = false) evs →
  let loading :=
    Elem "div" "card"
      [ Elem "h2" "" [Text "📊 System Dashboard"];
        Elem "div" "no-data" [Text "Loading system stats..."] ] in
  let w := run mounted evs in
  Dashboard VNull liveData = Ok loading ∧
  stat_cards loading = [] ∧
  stat_cards system = [] ∧
  displayed "Frame Queue" system = [] ∧
  displayed "Results Queue" system = [] ∧
  stats (cells w) = VNull ∧
  Dashboard (stats (cells w)) (App.liveData (cells w)) = Ok loading.
Proof.
  intros Hsys Hevs loading w.
  apply SystemStats_loading in Hsys.
  assert (stats (cells w) = VNull) as Hw by (by apply run_stats).
  unfold displayed. rewrite Hw, Hsys. by repeat split.
Qed.

Lemma no_queue_depth_before_snapshot_witness :
  let evs := [ WsOpen; WsMessage (Some (queue_event 7 1));
               Settle Stats NetworkError; Elapse 2000 ] in
  liveData (cells (run mounted evs)) = queue_event 7 1 ∧
  ∃ system,
    SystemStats VNull (VArr []) (queue_event 7 1) = Ok system ∧
    displayed "Frame Queue" system = [] ∧
    stats (cells (run mounted evs)) = VNull.
Proof.
  intros evs. split; [reflexivity|]. eexists. split; [reflexivity|].
  destruct (no_queue_depth_before_snapshot (VArr []) (queue_event 7 1) _ evs
              eq_refl)
    as (_ & _ & _ & H1 & _ & H2 & _).
  - subst evs. repeat constructor.
  - exact (conj H1 H2).
Defined.

(** * Further properties of the code *)

(** ** App.js: the polling effect *)

Lemma poll_env (w : world) :
  requests (env (poll w)) = requests (env w) ++ round ∧
  interval (env (poll w)) = interval (env w) ∧
  clock (env (poll w)) = clock (env w).
Proof. simpl. by rewrite <-!app_assoc. Qed.

Lemma iter_poll_env (n : N) (w : world) :
  requests (env (N.iter n poll w))
  = requests (env w) ++ mjoin (replicate (N.to_nat n) round) ∧
  interval (env (N.iter n poll w)) = interval (env w) ∧
  clock (env (N.iter n poll w)) = clock (env w).
Proof.
  induction n as [|n IH] using N.peano_ind.
  - simpl. by rewrite app_nil_r.
  - rewrite N.iter_succ, N2Nat.inj_succ.
    destruct IH as (Hr & Hi & Hc), (poll_env (N.iter n poll w)) as (Hr' & Hi' & Hc').
    rewrite Hr', Hi', Hc', Hr, Hi, Hc. split; [|done].
    rewrite <-app_assoc. f_equal.
    change (S (N.to_nat n)) with (1 + N.to_nat n)%nat.
    by rewrite Nat.add_comm, replicate_add, join_app.
Qed.

Lemma ticks_due (c ms : N) :
  ((c / 2000 + 1) * 2000 ≤ c + ms)%N →
  let ticks := ((c + ms - (c / 2000 + 1) * 2000) / 2000 + 1)%N in
  (c / 2000 + 1 + ticks = (c + ms) / 2000 + 1)%N ∧
  ((c / 2000 + 1) * 2000 + ticks * 2000 = ((c + ms) / 2000 + 1) * 2000)%N.
Proof. intros. zify. Z.div_mod_to_equations. lia. Qed.

Lemma no_tick_due (c ms : N) :
  (c + ms < (c / 2000 + 1) * 2000)%N → ((c + ms) / 2000 = c / 2000)%N.
Proof. intros. zify. Z.div_mod_to_equations. lia. Qed.

Lemma step_on_schedule (w : world) (e : event) :
  e ≠ Unmount → on_schedule w →
  on_schedule (step w e) ∧
  clock (env (step w e))
  = (clock (env w) + match e with Elapse ms => ms | _ => 0 end)%N.
Proof.
  intros He [Hr Hi]. unfold on_schedule.
  destruct e as [ms|r o| |data| | |]; try done; simpl.
  - unfold elapse. rewrite Hi.
    set (c := clock (env w)) in *. unfold POLL_MS in *.
    destruct (_ <=? _)%N eqn:Hdue.
    + apply N.leb_le in Hdue. simpl.
      destruct (iter_poll_env (((c + ms) - (c / 2000 + 1) * 2000) / 2000 + 1) w)
        as (Hr' & _ & _).
      rewrite Hr', Hr, <-join_app, <-replicate_add, <-N2Nat.inj_add.
      destruct (ticks_due c ms Hdue) as [-> ->]. done.
    + apply N.leb_gt in Hdue. simpl. fold c.
      by rewrite (no_tick_due c ms Hdue), Hr.
  - rewrite N.add_0_r. case_bool_decide; [|done].
    by destruct o as [|status [data|]], r.
  - rewrite N.add_0_r. by destruct (readyState (env w)).
  - rewrite N.add_0_r. by destruct (readyState (env w)), data.
  - rewrite N.add_0_r. by destruct (readyState (env w)).
  - rewrite N.add_0_r. by destruct (readyState (env w)).
Qed.

(** On the browser's side, a run without a teardown keeps the schedule. *)
Lemma run_on_schedule (evs : list event) :
  Unmount ∉ evs →
  let w := run mounted evs in
  let rounds := (elapsed evs / 2000 + 1)%N in
  clock (env w) = elapsed evs ∧
  requests (env w) = mjoin (replicate (N.to_nat rounds) round) ∧
  interval (env w) = Some (rounds * 2000)%N.
Proof.
  intros Hevs.
  assert (∀ w, on_schedule w →
            on_schedule (run w evs) ∧
            clock (env (run w evs)) = (clock (env w) + elapsed evs)%N) as Hrun.
  { induction evs as [|e evs IH]; intros w Hw; simpl.
    - by rewrite N.add_0_r.
    - apply not_elem_of_cons in Hevs as [He Hevs].
      destruct (step_on_schedule w e) as [Hw' Hc]; [done..|].
      destruct (IH Hevs (step w e) Hw') as [Hw'' Hc'].
      split; [done|]. rewrite Hc', Hc. destruct e; lia. }
  destruct (Hrun mounted) as [[Hr Hi] Hc]; [by split|].
  cbv zeta. change (clock (env mounted)) with 0%N in Hc.
  rewrite N.add_0_l in Hc. unfold POLL_MS in *. by rewrite <-Hc.
Qed.

(** X1.  As long as the component is there, polling keeps to its
    schedule whatever else happens: if, after a session that lets [t]
    milliseconds pass, the component is still mounted (no teardown and
    no render error on the way), the requests issued are exactly
    [t / 2000 + 1] rounds of [/stats], [/streams],
    [/detections?limit=10], in that order, and the next tick is due at
    the next multiple of 2000. *)
Theorem polling_cadence (evs : list event) (c : component) :
  session started evs = Ok c →
  alive c = true →
  let rounds := (elapsed evs / 2000 + 1)%N in
  clock (env (page c)) = elapsed evs ∧
  requests (env (page c)) = mjoin (replicate (N.to_nat rounds) round) ∧
  interval (env (page c)) = Some (rounds * 2000)%N.
Proof.
  intros Hs Ha.
  destruct (session_alive _ _ _ Hs Ha) as (_ & Hevs & ->).
  by apply run_on_schedule.
Qed.

Lemma polling_cadence_witness :
  let evs := [ Elapse 1500; Settle Stats NetworkError; WsOpen;
               Settle Streams (Response 200 (Some (VArr [])));
               Elapse 1500; Elapse 4000 ] in
  ∃ c,
    session started evs = Ok c ∧
    alive c = true ∧
    clock (env (page c)) = 7000%N ∧
    requests (env (page c)) = round ++ round ++ round ++ round ∧
    interval (env (page c)) = Some 8000%N.
Proof.
  intros evs.
  assert (session started evs = Ok {| page := run mounted evs; alive := true |})
    as Hs by (by vm_compute).
  eexists. split; [exact Hs|]. split; [reflexivity|].
  exact (polling_cadence evs _ Hs eq_refl).
Defined.

(** ** App.js: the fetchers *)

(** X2.  The three polls do not interfere: however a poll settles, it
    leaves the cells of the other two resources, the live reading and
    the connection flag as they were. *)
Theorem polls_independent
    (w : world) (r r' : resource) (o : fetch_outcome) :
  r' ≠ r →
  cell r' (cells (step w (Settle r o))) = cell r' (cells w) ∧
  liveData (cells (step w (Settle r o))) = liveData (cells w) ∧
  connected (cells (step w (Settle r o))) = connected (cells w).
Proof.
  intros Hr. simpl. case_bool_decide; [|done].
  by destruct o as [|status [data|]], r, r'.
Qed.

Lemma polls_independent_witness :
  let w := step mounted (Settle Streams (Response 200 (Some (VArr [])))) in
  stats (cells w) = VNull ∧ liveData (cells w) = VNull.
Proof.
  destruct (polls_independent mounted Streams Stats
              (Response 200 (Some (VArr [])))) as (H1 & H2 & _); [done|].
  exact (conj H1 H2).
Defined.

Lemma step_cell (w : world) (r : resource) (e : event) :
  cell r (cells (step w e)) = cell r (cells w) ∨
  ∃ status, e = Settle r (Response status (Some (cell r (cells (step w e))))).
Proof.
  destruct e as [ms|r' o| |data| | |]; simpl.
  - left. by rewrite elapse_cells.
  - case_bool_decide; [|by left].
    destruct o as [|status [data|]]; [by left| |by left].
    destruct (decide (r' = r)) as [->|Hne].
    + right. exists status. by destruct r.
    + left. by destruct r, r'.
  - left. by destruct (readyState (env w)).
  - left. by destruct (readyState (env w)), data, r.
  - left. by destruct (readyState (env w)).
  - left. by destruct (readyState (env w)).
  - left. unfold unmount. simpl. by destruct (readyState (env w)).
Qed.

Lemma step_liveData (w : world) (e : event) :
  liveData (cells (step w e)) = liveData (cells w) ∨
  readyState (env w) = OPEN ∧
  e = WsMessage (Some (liveData (cells (step w e)))).
Proof.
  destruct e as [ms|r' o| |data| | |]; simpl.
  - left. by rewrite elapse_cells.
  - left. case_bool_decide; [|done]. by destruct o as [|status [data|]], r'.
  - left. by destruct (readyState (env w)).
  - destruct (readyState (env w)), data; auto.
  - left. by destruct (readyState (env w)).
  - left. by destruct (readyState (env w)).
  - left. unfold unmount. simpl. by destruct (readyState (env w)).
Qed.

Lemma bodies_further (r : resource) (e : event) (evs : list event) (v : jsval) :
  v ∈ bodies r evs → v ∈ bodies r (e :: evs).
Proof.
  unfold bodies. rewrite !list_elem_of_omap. intros (e' & Hin & He).
  exists e'. split; [by apply list_elem_of_further | done].
Qed.

Lemma bodies_here (r : resource) (status : Z) (v : jsval)
    (e : event) (evs : list event) :
  e = Settle r (Response status (Some v)) → v ∈ bodies r (e :: evs).
Proof.
  intros ->. unfold bodies. simpl. rewrite decide_True by done.
  apply list_elem_of_here.
Qed.

Lemma frames_further (e : event) (evs : list event) (v : jsval) :
  v ∈ frames evs → v ∈ frames (e :: evs).
Proof.
  unfold frames. rewrite !list_elem_of_omap. intros (e' & Hin & He).
  exists e'. split; [by apply list_elem_of_further | done].
Qed.

Lemma frames_here (v : jsval) (e : event) (evs : list event) :
  e = WsMessage (Some v) → v ∈ frames (e :: evs).
Proof. intros ->. apply list_elem_of_here. Qed.

(** X3.  Where the state comes from: at any point of any run, the cell
    of each polled resource holds its initial value or a body that a
    response for that very resource carried during the run, and the live
    reading is null or a frame that decoded during the run.  Nothing
    else writes them. *)
Theorem state_provenance (evs : list event) (r : resource) :
  cell r (cells (run mounted evs)) ∈ cell r (cells mounted) :: bodies r evs ∧
  liveData (cells (run mounted evs)) ∈ VNull :: frames evs.
Proof.
  assert (∀ w,
    cell r (cells (run w evs)) ∈ cell r (cells w) :: bodies r evs ∧
    liveData (cells (run w evs)) ∈ liveData (cells w) :: frames evs) as Hrun.
  { induction evs as [|e evs IH]; intros w; simpl.
    - split; apply list_elem_of_here.
    - destruct (IH (step w e)) as [Hc Hl]. split.
      + apply elem_of_cons in Hc. rewrite elem_of_cons.
        destruct (step_cell w r e) as [Hsame|[status He]].
        * destruct Hc as [Hc|Hc]; [left; congruence|].
          right. by apply bodies_further.
        * right. destruct Hc as [Hc|Hc].
          -- rewrite Hc. by eapply bodies_here.
          -- by apply bodies_further.
      + apply elem_of_cons in Hl. rewrite elem_of_cons.
        destruct (step_liveData w e) as [Hsame|[_ He]].
        * destruct Hl as [Hl|Hl]; [left; congruence|].
          right. by apply frames_further.
        * right. destruct Hl as [Hl|Hl].
          -- rewrite Hl. by apply frames_here.
          -- by apply frames_further. }
  apply Hrun.
Qed.

(** ** App.js: the WebSocket effect *)

Lemma iter_poll_socket (n : N) (w : world) :
  readyState (env (N.iter n poll w)) = readyState (env w) ∧
  uncaught (env (N.iter n poll w)) = uncaught (env w).
Proof. by apply N.iter_invariant; [intros x [<- <-]|]. Qed.

Lemma elapse_socket (ms : N) (w : world) :
  readyState (env (elapse ms w)) = readyState (env w) ∧
  uncaught (env (elapse ms w)) = uncaught (env w).
Proof.
  unfold elapse. destruct (interval (env w)); [|done].
  destruct (_ <=? _)%N; [|done]. simpl. apply iter_poll_socket.
Qed.



Lemma run_connected (w : world) (evs : list event) :
  connected (cells w) = socket_open (readyState (env w)) →
  connected (cells (run w evs)) = socket_open (readyState (env (run w evs))).
Proof.
  revert w. induction evs as [|e evs IH]; intros w Hw; [done|].
  apply IH. clear IH.
  destruct e as [ms|r o| |data| | |]; simpl.
  - by rewrite elapse_cells, (proj1 (elapse_socket ms w)).
  - case_bool_decide; [|done]. by destruct o as [|status [data|]], r.
  - destruct (readyState (env w)) eqn:Hs; simpl; by rewrite ?Hs.
  - destruct (readyState (env w)) eqn:Hs, data; simpl; by rewrite ?Hs.
  - destruct (readyState (env w)) eqn:Hs; simpl; by rewrite ?Hs.
  - destruct (readyState (env w)) eqn:Hs; simpl; by rewrite ?Hs.
  - unfold unmount. simpl.
    destruct (readyState (env w)) eqn:Hs; simpl; by rewrite ?Hs.
Qed.


(** X6.  What the header shows: whenever the view renders, its
    connection status reads 'Live' exactly while the socket has opened
    and not closed, and 'Disconnected' otherwise. *)
Theorem header_status (evs : list event) (tree : node) :
  let w := run mounted evs in
  App_view (cells w) = Ok tree →
  status_text tree
  = Some (VStr (if socket_open (readyState (env w))
                then "Live" else "Disconnected")).
Proof.
  intros w. unfold App_view. res_simpl.
  res_destruct (Dashboard (stats (cells w)) (liveData (cells w))) d Hd.
  res_destruct (SystemStats (stats (cells w)) (streams (cells w))
                  (liveData (cells w))) y Hy.
  res_destruct (DetectionFeed (recentDetections (cells w))
                  (liveData (cells w))) f Hf.
  intros [= <-]. simpl. subst w. by rewrite (run_connected mounted evs).
Qed.

Lemma header_status_witness :
  ∃ tree,
    App_view (cells (run mounted [WsOpen])) = Ok tree ∧
    status_text tree = Some (VStr "Live").
Proof.
  eexists. split; [reflexivity|].
  exact (header_status [WsOpen] _ eq_refl).
Defined.

Lemma step_closing (w : world) (e : event) :
  readyState (env w) = CLOSING ∨ readyState (env w) = CLOSED →
  (readyState (env (step w e)) = CLOSING ∨
   readyState (env (step w e)) = CLOSED) ∧
  liveData (cells (step w e)) = liveData (cells w).
Proof.
  intros Hs. destruct e as [ms|r o| |data| | |]; simpl.
  - by rewrite elapse_cells, (proj1 (elapse_socket ms w)).
  - case_bool_decide; [|done]. by destruct o as [|status [data|]], r.
  - destruct Hs as [Hs|Hs]; rewrite Hs; simpl; rewrite ?Hs; auto.
  - destruct Hs as [Hs|Hs]; rewrite Hs; simpl; rewrite ?Hs; auto.
  - destruct Hs as [Hs|Hs]; rewrite Hs; simpl; rewrite ?Hs; auto.
  - destruct Hs as [Hs|Hs]; rewrite Hs; simpl; rewrite ?Hs; auto.
  - unfold unmount. simpl.
    destruct Hs as [Hs|Hs]; rewrite Hs; simpl; rewrite ?Hs; auto.
Qed.

(** X7.  After teardown the live reading is frozen, unless the socket
    was still connecting: if the handshake had completed or failed by
    the time of the teardown, no later event changes [liveData]. *)
Theorem no_frame_after_teardown (w : world) (evs : list event) :
  readyState (env w) ≠ CONNECTING →
  liveData (cells (run (step w Unmount) evs)) = liveData (cells w).
Proof.
  intros Hw.
  assert (∀ w', readyState (env w') = CLOSING ∨ readyState (env w') = CLOSED →
            liveData (cells (run w' evs)) = liveData (cells w')) as Hrun.
  { induction evs as [|e evs IH]; intros w' Hw'; [done|].
    destruct (step_closing w' e Hw') as [Hs Hl].
    simpl. by rewrite (IH (step w' e) Hs). }
  rewrite Hrun.
  - destruct (unmount_clears w) as (_ & _ & _ & Hc). simpl. by rewrite Hc.
  - simpl. unfold unmount. simpl.
    destruct (readyState (env w)) eqn:Hs; simpl; rewrite ?Hs; auto. done.
Qed.

Lemma no_frame_after_teardown_witness :
  let w := step (step mounted WsOpen) (WsMessage (Some (queue_event 7 1))) in
  liveData (cells (run (step w Unmount)
                     [WsMessage (Some (queue_event 0 0)); WsClose]))
  = queue_event 7 1.
Proof.
  intros w.
  exact (no_frame_after_teardown w
           [WsMessage (Some (queue_event 0 0)); WsClose]
           ltac:(discriminate)).
Defined.

(** X8.  A teardown before the handshake completes does not close the
    socket, since the cleanup closes an open socket only.  The socket
    still opens afterwards and its callbacks still run: the connection
    is logged, and a frame that does not decode still throws.  The state
    of the component that is gone stays as it was. *)
Theorem teardown_while_connecting (c : component) (data : option jsval) :
  alive c = true →
  readyState (env (page c)) = CONNECTING →
  ∃ c',
    session c [Unmount; WsOpen; WsMessage data] = Ok c' ∧
    alive c' = false ∧
    readyState (env (page c')) = OPEN ∧
    console (env (page c'))
    = console (env (page c)) ++ [(Log, "WebSocket connected")] ∧
    uncaught (env (page c'))
    = uncaught (env (page c))
      ++ match data with Some _ => [] | None => [SyntaxError] end ∧
    cells (page c') = cells (page c).
Proof.
  destruct c as [w a]. cbn [alive page]. intros -> Hw.
  cbn [session deliver alive page]. res_simpl.
  cbn [deliver alive page]. res_simpl. cbn [deliver alive page].
  eexists. split; [reflexivity|]. cbn [alive page cells env].
  unfold unmount. simpl. rewrite Hw. simpl. rewrite Hw. simpl.
  destruct data; simpl; by rewrite ?app_nil_r.
Qed.

Lemma teardown_while_connecting_witness :
  ∃ c',
    session started [Unmount; WsOpen; WsMessage None] = Ok c' ∧
    readyState (env (page c')) = OPEN ∧
    uncaught (env (page c')) = [SyntaxError] ∧
    cells (page c') = cells mounted.
Proof.
  destruct (teardown_while_connecting started None eq_refl eq_refl)
    as (c' & Hs & _ & Hr & _ & Hu & Hc).
  exists c'. exact (conj Hs (conj Hr (conj Hu Hc))).
Defined.

(** X9.  Every failure of a poll is caught: the only exception that ever
    leaves a callback is the [SyntaxError] of a frame that does not
    decode, so a run without such a frame leaves none, however its polls
    fail. *)
Theorem failures_are_caught (w : world) (evs : list event) :
  WsMessage None ∉ evs →
  uncaught (env (run w evs)) = uncaught (env w).
Proof.
  revert w. induction evs as [|e evs IH]; intros w Hevs; [done|].
  apply not_elem_of_cons in Hevs as [He Hevs].
  simpl. rewrite (IH (step w e) Hevs). clear IH Hevs.
  destruct e as [ms|r o| |data| | |]; simpl.
  - apply elapse_socket.
  - case_bool_decide; [|done]. by destruct o as [|status [data|]], r.
  - by destruct (readyState (env w)).
  - destruct data; [|done]. by destruct (readyState (env w)).
  - by destruct (readyState (env w)).
  - by destruct (readyState (env w)).
  - unfold unmount. simpl. by destruct (readyState (env w)).
Qed.

Lemma failures_are_caught_witness :
  uncaught (env (run mounted
    [ Settle Stats NetworkError; Settle Streams (Response 502 None);
      WsFail; Elapse 2000; Settle Stats NetworkError ])) = [].
Proof.
  apply (failures_are_caught mounted).
  intros Hin. by repeat (apply elem_of_cons in Hin as [?|Hin]);
    try by apply elem_of_nil in Hin.
Defined.

(** ** Dashboard.js and SystemStats.js: payloads of the wrong shape *)

(** X10.  A [/stats] response whose body is an object without
    [total_frames_processed] (the JSON body of an error, say), whatever
    its status, takes the whole view down: once it has settled, [App]
    throws a [TypeError] instead of returning a tree. *)
Theorem error_body_blanks_view
    (w : world) (status : Z) (body : gmap string jsval) :
  Stats ∈ in_flight (env w) →
  body !! "total_frames_processed" = None →
  App_view (cells (step w (Settle Stats (Response status (Some (VObj body))))))
  = Throw TypeError.
Proof.
  intros Hin Hbody. simpl. rewrite bool_decide_eq_true_2 by done.
  unfold App_view, Dashboard. simpl. unfold obj_get. by rewrite Hbody.
Qed.

Lemma error_body_blanks_view_witness :
  App_view (cells (step mounted
    (Settle Stats (Response 404 (Some (VObj {[ "detail" := VStr "Not Found" ]}))))))
  = Throw TypeError.
Proof.
  apply (error_body_blanks_view mounted 404 {[ "detail" := VStr "Not Found" ]}).
  - apply (bool_decide_unpack _). by vm_compute.
  - reflexivity.
Defined.

Lemma Dashboard_divisors_witness :
  ∃ tree,
    Dashboard (snapshot 100 50 2 3 1) VNull = Ok tree ∧
    Forall (λ divisor, 0 < divisor) (divisors tree).
Proof.
  eexists. split; [reflexivity|].
  exact (Dashboard_divisors (snapshot 100 50 2 3 1) VNull _ eq_refl).
Defined.

Lemma stream_item_key (stream : jsval) (item : node) :
  stream_item stream = Ok item → keys item = [prop stream "id"].
Proof.
  unfold stream_item, get. destruct (nullish stream); [done|]. res_simpl.
  res_destruct (toLocaleString (prop stream "frames_processed")) f Hf.
  res_destruct (toLocaleString (prop stream "total_detections")) d Hd.
  apply toLocaleString_leaf in Hf, Hd. subst. by intros [= <-].
Qed.

Lemma mapM_stream_item_keys (roster : list jsval) (items : list node) :
  mapM stream_item roster = Ok items →
  flat_map keys items = (λ stream, prop stream "id") <$> roster ∧
  length items = length roster.
Proof.
  revert items. induction roster as [|x roster IH]; intros items; simpl.
  - by intros [= <-].
  - res_simpl. res_destruct (stream_item x) y Hy.
    res_destruct (mapM stream_item roster) ys Hys.
    intros [= <-]. destruct (IH ys eq_refl) as [Hk Hl]. simpl.
    by rewrite (stream_item_key _ _ Hy), Hk, Hl.
Qed.

(** X12.  The roster is shown whole and in order: for a [/streams]
    payload of stream summaries, however long, the active-streams block
    renders one item per stream, keyed by the stream's [id], in the
    order of the payload; only the empty payload gives 'No active
    streams'. *)
Theorem roster_shown_whole (roster : list jsval) :
  Forall is_stream_summary roster →
  ∃ tree,
    active_streams (VArr roster) = Ok tree ∧
    keys tree = (λ stream, prop stream "id") <$> roster ∧
    (roster = [] ↔ tree = Elem "div" "no-data" [Text "No active streams"]).
Proof.
  intros Hroster.
  destruct roster as [|x roster]; [by eexists|].
  assert (∃ items, mapM stream_item (x :: roster) = Ok items) as [items Hitems].
  { clear -Hroster. induction Hroster as [|y l Hy _ [items IH]]; [by eexists|].
    destruct (stream_item_renders y Hy) as [item Hitem].
    exists (item :: items). simpl. res_simpl. by rewrite Hitem, IH. }
  exists (Items items). split; [|split; [|done]].
  - unfold active_streams.
    cbn [truthy get nullish prop String.eqb Ascii.eqb Bool.eqb].
    res_simpl. cbn [gt0 res_bind].
    replace (0 <? Z.of_nat (length (x :: roster))) with true
      by (symmetry; apply Z.ltb_lt; simpl; lia).
    by rewrite Hitems.
  - cbn [keys]. by apply mapM_stream_item_keys in Hitems as [-> _].
Qed.

Lemma roster_shown_whole_witness :
  ∃ tree,
    active_streams
      (VArr [ stream_summary 4 "cam-4" "active" 10 2 "rtsp://a";
              stream_summary 1 "cam-1" "idle" 0 0 "rtsp://b" ]) = Ok tree ∧
    keys tree = [VNum 4; VNum 1].
Proof.
  destruct (roster_shown_whole
              [ stream_summary 4 "cam-4" "active" 10 2 "rtsp://a";
                stream_summary 1 "cam-1" "idle" 0 0 "rtsp://b" ])
    as (tree & Ht & Hk & _).
  - repeat constructor; by repeat eexists.
  - exists tree. split; [exact Ht | exact Hk].
Defined.

Lemma mapM_Ok {A B} (f : A → res B) (l : list A) (ys : list B) :
  mapM f l = Ok ys → Forall (λ x, ∃ y, f x = Ok y) l.
Proof.
  revert ys. induction l as [|x l IH]; intros ys; simpl; [by constructor|].
  res_simpl. res_destruct (f x) y Hy. res_destruct (mapM f l) ys' Hys.
  intros _. constructor; [by eexists | by eapply IH].
Qed.

(** X13.  One bad entry takes the component down: if the [/streams]
    payload is an array with a [null] entry anywhere, SystemStats returns
    no tree, whatever else it was given. *)
Theorem roster_entry_null (stats liveData : jsval) (roster : list jsval) :
  VNull ∈ roster →
  renders (SystemStats stats (VArr roster) liveData) = false.
Proof.
  intros Hin. unfold SystemStats. res_simpl.
  destruct (active_streams (VArr roster)) as [r| |] eqn:Hr;
    cbn [res_bind]; [|done..].
  exfalso. revert Hr. unfold active_streams.
  cbn [truthy get nullish prop String.eqb Ascii.eqb Bool.eqb].
  res_simpl. cbn [gt0 res_bind].
  destruct roster as [|x roster]; [by apply elem_of_nil in Hin|].
  replace (0 <? Z.of_nat (length (x :: roster))) with true
    by (symmetry; apply Z.ltb_lt; simpl; lia).
  res_destruct (mapM stream_item (x :: roster)) items Hitems.
  intros _. apply mapM_Ok in Hitems.
  rewrite Forall_forall in Hitems. by destruct (Hitems _ Hin).
Qed.

Lemma roster_entry_null_witness :
  renders (SystemStats (snapshot 100 50 2 3 1)
             (VArr [stream_summary 1 "cam-1" "idle" 0 0 "rtsp://b"; VNull])
             VNull) = false.
Proof.
  apply roster_entry_null. apply list_elem_of_further, list_elem_of_here.
Defined.

(** X14.  A body that is an object and not an array (an error body
    again) stored by a [/streams] poll is not reported: the roster then
    reads 'No active streams', as for an empty payload. *)
Theorem object_body_reads_as_no_streams
    (w : world) (status : Z) (body : gmap string jsval) :
  Streams ∈ in_flight (env w) →
  body !! "length" = None →
  let w' := step w (Settle Streams (Response status (Some (VObj body)))) in
  streams (cells w') = VObj body ∧
  active_streams (streams (cells w'))
  = Ok (Elem "div" "no-data" [Text "No active streams"]).
Proof.
  intros Hin Hbody. simpl. rewrite bool_decide_eq_true_2 by done.
  split; [done|]. unfold active_streams. simpl. unfold obj_get.
  by rewrite Hbody.
Qed.

Lemma object_body_reads_as_no_streams_witness :
  active_streams (streams (cells (step mounted
    (Settle Streams (Response 500 (Some (VObj {[ "detail" := VStr "x" ]})))))))
  = Ok (Elem "div" "no-data" [Text "No active streams"]).
Proof.
  destruct (object_body_reads_as_no_streams mounted 500
              {[ "detail" := VStr "x" ]}) as [_ H].
  - apply (bool_decide_unpack _). by vm_compute.
  - reflexivity.
  - exact H.
Defined.

(** X15.  Apart from a falsy live depth, the health line agrees with the
    depth shown above it: when no live reading is there, or the live
    reading's depth is truthy, the frame-queue card of SystemStats reads
    'Healthy' exactly if the depth it shows is the number 0. *)
Theorem health_agrees_with_depth
    (stats streams liveData : jsval) (tree : node) :
  truthy stats = true →
  truthy liveData = false ∨ truthy (prop liveData "frame_queue_size") = true →
  SystemStats stats streams liveData = Ok tree →
  ∃ depth,
    displayed "Frame Queue" tree = [Expr depth] ∧
    health "Frame Queue" tree
    = [Expr (VStr (if is_zero depth then "✅ Healthy" else "⚠️ Backlog"))].
Proof.
  intros Hs Hlive Ht.
  destruct (SystemStats_rendered _ _ Hs _ _ Ht) as (live & roster & Hl & Hr & ->).
  assert (health_depth "frame_queue_size" stats liveData
          = prop (if truthy liveData then liveData else stats)
              "frame_queue_size") as ->.
  { unfold health_depth, get_opt. destruct Hlive as [Hf|Ht'].
    - rewrite Hf. by destruct liveData as [| |[]|[]|[]| | |].
    - destruct (truthy liveData) eqn:Hl'.
      + by rewrite truthy_not_nullish, Ht'.
      + by destruct liveData as [| |[]|[]|[]| | |]. }
  eexists. unfold displayed, health. simpl. by rewrite Hl, Hr.
Qed.

Lemma health_agrees_with_depth_witness :
  ∃ tree,
    SystemStats (snapshot 100 50 2 0 0) (VArr []) VNull = Ok tree ∧
    displayed "Frame Queue" tree = [Expr (VNum 0)] ∧
    health "Frame Queue" tree = [Expr (VStr "✅ Healthy")].
Proof.
  eexists. split; [reflexivity|].
  destruct (health_agrees_with_depth (snapshot 100 50 2 0 0) (VArr []) VNull _
              eq_refl (or_introl eq_refl) eq_refl) as (depth & Hd & Hh).
  injection Hd as <-. split; [reflexivity | exact Hh].
Defined.

(** ** DetectionFeed.js: [getObjectCounts] on any labels *)

Lemma getObjectCounts_fresh_witness :
  ∃ counts,
    getObjectCounts (VArr (detection <$> ["car"; "car"; "person"]))
    = Ok (VObj counts) ∧
    counts !! "car" = Some (VNum 2) ∧ counts !! "bus" = None.
Proof.
  destruct (getObjectCounts_fresh ["car"; "car"; "person"])
    as (counts & Hc & Hs).
  - repeat apply Forall_cons_2;
      [apply (bool_decide_unpack _); by vm_compute..|apply Forall_nil_2].
  - exists counts. split; [exact Hc|].
    split; [exact (Hs "car") | exact (Hs "bus")].
Defined.

Lemma bump_simple (v : jsval) :
  simple v →
  or_else v (Ok (VNum 0)) ≫= plus1 = Ok (bump v) ∧ simple (bump v).
Proof.
  unfold bump, or_else.
  destruct v as [| |[]|n|s| | |]; try done; simpl.
  - by destruct (n =? 0).
  - by destruct (String.eqb s "").
Qed.

Lemma tally_simple (k : string) (n : nat) : simple (tally k n).
Proof.
  induction n as [|n IH]; simpl.
  - unfold tally, inherited. simpl. by case_bool_decide.
  - by apply bump_simple.
Qed.

Lemma times_snoc (k l : string) (counted : list string) :
  times k (counted ++ [l])
  = (times k counted + if decide (l = k) then 1 else 0)%nat.
Proof.
  unfold times. rewrite filter_app, length_app, filter_cons, filter_nil.
  by destruct (decide (l = k)).
Qed.

Lemma times_absent (k : string) (counted : list string) :
  k ∉ counted → times k counted = 0%nat.
Proof.
  unfold times. induction counted as [|x counted IH]; [done|].
  intros [Hx Hl]%not_elem_of_cons.
  rewrite filter_cons_False by congruence. by apply IH.
Qed.

Lemma tallied_snoc_proto (counted : list string) (counts : gmap string jsval) :
  tallied counted counts → tallied (counted ++ ["__proto__"]) counts.
Proof.
  intros Hc k. rewrite (Hc k), times_snoc.
  destruct (decide ("__proto__" = k)) as [<-|Hne].
  - by rewrite !decide_False by intuition congruence.
  - rewrite Nat.add_0_r. apply decide_ext.
    rewrite elem_of_app, list_elem_of_singleton. intuition congruence.
Qed.

Lemma tallied_snoc (counted : list string) (l : string)
    (counts : gmap string jsval) :
  l ≠ "__proto__" →
  tallied counted counts →
  tallied (counted ++ [l]) (<[l := bump (tally l (times l counted))]> counts).
Proof.
  intros Hl Hc k. rewrite times_snoc.
  destruct (decide (l = k)) as [<-|Hne].
  - rewrite lookup_insert_eq, decide_True.
    + by rewrite Nat.add_comm.
    + split; [|done]. apply elem_of_app. right. apply list_elem_of_here.
  - rewrite lookup_insert_ne, (Hc k), Nat.add_0_r by done. apply decide_ext.
    rewrite elem_of_app, list_elem_of_singleton. intuition congruence.
Qed.

Lemma count_detection_tallied (counted : list string) (l : string)
    (counts : gmap string jsval) :
  tallied counted counts →
  ∃ counts',
    count_detection counts (detection l) = Ok counts' ∧
    tallied (counted ++ [l]) counts'.
Proof.
  intros Hc. unfold count_detection.
  rewrite detection_class_name. cbn [mbind res_mbind res_bind to_key].
  destruct (decide (l = "__proto__")) as [->|Hl].
  - exists counts. split; [|by apply tallied_snoc_proto].
    unfold obj_get, obj_set. rewrite (Hc "__proto__").
    rewrite decide_False by intuition congruence. done.
  - exists (<[l := bump (tally l (times l counted))]> counts).
    split; [|by apply tallied_snoc].
    assert (obj_get counts l = tally l (times l counted)) as ->.
    { unfold obj_get. rewrite (Hc l).
      destruct (decide (l ∈ counted)) as [Hin|Hnin].
      - by rewrite decide_True.
      - rewrite decide_False by intuition congruence. by rewrite times_absent. }
    destruct (bump_simple _ (tally_simple l (times l counted))) as [-> _].
    cbn [res_bind]. unfold obj_set.
    by rewrite (proj2 (String.eqb_neq l "__proto__")).
Qed.

Lemma forEach_tallied (labels counted : list string)
    (counts : gmap string jsval) :
  tallied counted counts →
  ∃ counts',
    forEach counts (detection <$> labels) = Ok counts' ∧
    tallied (counted ++ labels) counts'.
Proof.
  revert counted counts.
  induction labels as [|l labels IH]; intros counted counts Hc.
  - exists counts. by rewrite app_nil_r.
  - destruct (count_detection_tallied counted l counts Hc) as (c1 & Hc1 & Hs1).
    destruct (IH (counted ++ [l]) c1 Hs1) as (c2 & Hc2 & Hs2).
    exists c2. rewrite fmap_cons. cbn [forEach mbind res_mbind].
    rewrite Hc1. cbn [res_bind]. split; [done|].
    by rewrite <-app_assoc in Hs2.
Qed.

Lemma tallied_nil : tallied [] ∅.
Proof.
  intros k. rewrite lookup_empty, decide_False; [done|].
  intros [Hin _]. by apply elem_of_nil in Hin.
Qed.

Lemma getObjectCounts_tally_aux (labels : list string) :
  ∃ counts,
    getObjectCounts (VArr (detection <$> labels)) = Ok (VObj counts) ∧
    tallied labels counts.
Proof.
  destruct (forEach_tallied labels [] ∅ tallied_nil) as (counts & Hc & Hs).
  exists counts. split; [|done]. unfold getObjectCounts. by rewrite Hc.
Qed.

(** X17.  Whatever the labels, the aggregation returns an object; its
    keys are exactly the labels that occur, [__proto__] apart; and what
    a key holds depends only on the key and on how many times it occurs:
    it is what that many executions of [(v || 0) + 1] make of the value
    a fresh object has under that name. *)
Theorem getObjectCounts_tally (labels : list string) :
  ∃ counts,
    getObjectCounts (VArr (detection <$> labels)) = Ok (VObj counts) ∧
    ∀ k,
      counts !! k
      = if decide (k ∈ labels ∧ k ≠ "__proto__")
        then Some (tally k (times k labels)) else None.
Proof. apply getObjectCounts_tally_aux. Qed.

(** X18.  The order of the detections does not matter to the mapping:
    two lists with the same labels in another order aggregate to the
    same object. *)
Theorem getObjectCounts_order (labels1 labels2 : list string) :
  labels1 ≡ₚ labels2 →
  getObjectCounts (VArr (detection <$> labels1))
  = getObjectCounts (VArr (detection <$> labels2)).
Proof.
  intros Hperm.
  destruct (getObjectCounts_tally_aux labels1) as (c1 & -> & H1).
  destruct (getObjectCounts_tally_aux labels2) as (c2 & -> & H2).
  do 2 f_equal. apply map_eq. intros k. rewrite H1, H2.
  assert (times k labels1 = times k labels2) as ->
    by (unfold times; by rewrite Hperm).
  apply decide_ext. by rewrite Hperm.
Qed.

Lemma getObjectCounts_order_witness :
  getObjectCounts (VArr (detection <$> ["car"; "toString"; "person"; "car"]))
  = getObjectCounts (VArr (detection <$> ["person"; "car"; "car"; "toString"])).
Proof.
  apply getObjectCounts_order.
  apply (bool_decide_unpack _). by vm_compute.
Defined.

Lemma total_count_insert (k : string) (v : jsval) (m : gmap string jsval) :
  total_count (<[k := v]> m)
  = (match v with VNum n => Z.to_nat n | _ => 0 end
     + total_count (delete k m))%nat.
Proof.
  unfold total_count. rewrite <-insert_delete_eq.
  by rewrite map_to_list_insert by apply lookup_delete_eq.
Qed.

Lemma total_count_delete (k : string) (m : gmap string jsval) :
  m !! k = None → total_count (delete k m) = total_count m.
Proof. intros Hk. by rewrite delete_id. Qed.

Lemma spec_counts_total (counted : list string) (counts : gmap string jsval) :
  spec_counts counted counts → total_count counts = length counted.
Proof.
  revert counts. induction counted as [|k counted IH] using rev_ind;
    intros counts Hc.
  - assert (counts = ∅) as ->; [|by vm_compute].
    apply map_eq. intros l. rewrite (Hc l), lookup_empty, decide_False; [done|].
    apply not_elem_of_nil.
  - pose proof (Hc k) as Hk. rewrite occurrences_snoc in Hk.
    rewrite decide_True in Hk
      by (apply elem_of_app; right; apply list_elem_of_here).
    rewrite decide_True in Hk by done.
    rewrite length_app, <-(insert_id counts k _ Hk), total_count_insert.
    simpl. set (c0 := if decide (k ∈ counted)
                      then <[k := VNum (occurrences k counted)]> counts
                      else delete k counts).
    assert (spec_counts counted c0) as H0.
    { intros l. subst c0. destruct (decide (l = k)) as [->|Hne].
      - destruct (decide (k ∈ counted)).
        + by rewrite lookup_insert_eq.
        + by rewrite lookup_delete_eq.
      - assert (counts !! l
                = if decide (l ∈ counted)
                  then Some (VNum (occurrences l counted)) else None) as Hl.
        { rewrite (Hc l), occurrences_snoc.
          rewrite (decide_False (P := k = l)), Z.add_0_r by congruence.
          apply decide_ext. rewrite elem_of_app, list_elem_of_singleton.
          intuition congruence. }
        destruct (decide (k ∈ counted)).
        + by rewrite lookup_insert_ne.
        + by rewrite lookup_delete_ne. }
    rewrite <-(IH c0 H0). subst c0.
    destruct (decide (k ∈ counted)) as [Hin|Hnin].
    + rewrite total_count_insert. pose proof (occurrences_pos k counted Hin).
      lia.
    + rewrite (occurrences_absent k counted Hnin). simpl. lia.
Qed.

(** X19.  Nothing is lost or counted twice: away from the names
    [Object.prototype] defines, the counts of the object add up to the
    number of detections. *)
Theorem getObjectCounts_sum (labels : list string) :
  Forall (λ k, k ∉ object_prototype) labels →
  ∃ counts,
    getObjectCounts (VArr (detection <$> labels)) = Ok (VObj counts) ∧
    total_count counts = length labels.
Proof.
  intros Hks.
  destruct (forEach_fresh labels [] ∅ Hks) as (counts & Hc & Hs).
  { intros l. rewrite lookup_empty, decide_False; [done|].
    apply not_elem_of_nil. }
  exists counts. split; [|by apply spec_counts_total].
  unfold getObjectCounts. by rewrite Hc.
Qed.

Lemma getObjectCounts_sum_witness :
  ∃ counts,
    getObjectCounts (VArr (detection <$> ["car"; "car"; "person"]))
    = Ok (VObj counts) ∧
    total_count counts = 3%nat.
Proof.
  apply (getObjectCounts_sum ["car"; "car"; "person"]).
  repeat apply Forall_cons_2;
    [apply (bool_decide_unpack _); by vm_compute..|apply Forall_nil_2].
Defined.

Lemma forEach_Ok (items : list jsval) (counts counts' : gmap string jsval) :
  forEach counts items = Ok counts' → VNull ∉ items.
Proof.
  revert counts. induction items as [|det items IH]; intros counts; simpl.
  - intros _. apply not_elem_of_nil.
  - res_simpl. res_destruct (count_detection counts det) c Hc.
    intros Hrest%IH. apply not_elem_of_cons. split; [|done].
    intros <-. by vm_compute in Hc.
Qed.

(** X20.  A [null] among the detections makes the aggregation throw:
    with one anywhere in the array, no object is returned. *)
Theorem getObjectCounts_null_entry (items : list jsval) :
  VNull ∈ items → renders (getObjectCounts (VArr items)) = false.
Proof.
  intros Hin. unfold getObjectCounts. res_simpl.
  destruct (forEach ∅ items) as [c| |] eqn:Hc; [|done..].
  by apply forEach_Ok in Hc.
Qed.

Lemma getObjectCounts_null_entry_witness :
  renders (getObjectCounts (VArr [detection "car"; VNull])) = false.
Proof.
  apply getObjectCounts_null_entry.
  apply list_elem_of_further, list_elem_of_here.
Defined.

Lemma forEach_unlabelled (items : list jsval) (n : nat) :
  Forall (λ v, ∃ m, v = VObj m ∧ m !! "class_name" = None) items →
  forEach (unlabelled n) items = Ok (unlabelled (n + length items)).
Proof.
  intros Hitems. revert n.
  induction Hitems as [|det items (m & -> & Hm) _ IH]; intros n; simpl.
  - by rewrite Nat.add_0_r.
  - assert (count_detection (unlabelled n) (VObj m) = Ok (unlabelled (S n)))
      as ->.
    { assert (get (VObj m) "class_name" = Ok VUndefined) as Hget.
      { unfold get, prop, obj_get. by rewrite Hm. }
      unfold count_detection. rewrite Hget.
      cbn [mbind res_mbind res_bind to_key].
      destruct n as [|n]; [done|].
      unfold unlabelled, obj_get. rewrite lookup_singleton_eq.
      unfold or_else. cbn [truthy].
      rewrite (proj2 (Z.eqb_neq _ 0)) by lia.
      cbn [negb mbind res_mbind res_bind plus1 obj_set String.eqb Ascii.eqb
           Bool.eqb andb].
      rewrite insert_singleton_eq. do 3 f_equal. lia. }
    res_simpl. rewrite IH. do 2 f_equal. lia.
Qed.

(** X21.  A detection without a [class_name] is counted under the key
    "undefined": a non-empty array of such detections aggregates to
    [{undefined: n}], [n] being its length. *)
Theorem getObjectCounts_unlabelled (items : list jsval) :
  Forall (λ v, ∃ m, v = VObj m ∧ m !! "class_name" = None) items →
  getObjectCounts (VArr items) = Ok (VObj (unlabelled (length items))).
Proof.
  intros Hitems. unfold getObjectCounts.
  change ∅ with (unlabelled 0).
  by rewrite (forEach_unlabelled items 0 Hitems).
Qed.

Lemma getObjectCounts_unlabelled_witness :
  getObjectCounts (VArr [VObj ∅; VObj {[ "label" := VStr "car" ]}])
  = Ok (VObj {[ "undefined" := VNum 2 ]}).
Proof.
  apply (getObjectCounts_unlabelled [VObj ∅; VObj {[ "label" := VStr "car" ]}]).
  repeat apply Forall_cons_2; [by eexists..|apply Forall_nil_2].
Defined.

(** ** DetectionFeed.js: the component *)

Lemma count_detection_key (counts counts' : gmap string jsval) (det : jsval) :
  count_detection counts det = Ok counts' →
  ∃ k, get det "class_name" ≫= to_key = Ok k.
Proof.
  unfold count_detection. res_simpl.
  destruct (get det "class_name") as [c| |]; res_simpl; [|done..].
  destruct (to_key c) as [k| |]; res_simpl; [|done..].
  intros _. by exists k.
Qed.

(** The creation order rides along: the own properties are those of
    [forEach]. *)
Lemma forEach_created_counts (items : list jsval)
    (counts : gmap string jsval) (created : list string) :
  fst <$> forEach_created counts created items = forEach counts items.
Proof.
  revert counts created.
  induction items as [|det items IH]; intros counts created; [done|].
  simpl. res_simpl.
  destruct (count_detection counts det) as [c| |] eqn:Hc; cbn [res_bind];
    [|done..].
  destruct (count_detection_key _ _ _ Hc) as [k Hk].
  res_simpl. rewrite Hk. cbn [res_bind]. apply IH.
Qed.

Lemma object_entries_renders (labels : list string) :
  ∃ entries, object_entries (VArr (detection <$> labels)) = Ok entries.
Proof.
  destruct (forEach_tallied labels [] ∅ tallied_nil) as (counts & Hc & _).
  pose proof (forEach_created_counts (detection <$> labels) ∅ []) as Hcr.
  rewrite Hc in Hcr. unfold object_entries. res_simpl.
  destruct (forEach_created ∅ [] (detection <$> labels)) as [r| |];
    [|done..].
  by eexists.
Qed.

Lemma badges_elements (cls : string) (entries : list (string * jsval)) :
  String.eqb "object-badge" cls = false →
  flat_map (elements cls) (object_badge <$> entries) = [].
Proof.
  intros Hcls. induction entries as [|e entries IH]; [done|].
  rewrite fmap_cons. cbn [flat_map elements object_badge].
  rewrite Hcls, IH. done.
Qed.

(** A record of the history renders to one item, whatever its labels. *)
Lemma detection_item_renders (detection : jsval) :
  is_detection_record detection →
  ∃ item,
    detection_item detection = Ok item ∧
    length (elements "detection-item" item) = 1%nat.
Proof.
  intros (id & sid & fn & labels & ->).
  destruct (object_entries_renders labels) as [entries Hentries].
  unfold detection_item, detection_record, get. simpl.
  change (obj_get _ "detections") with (VArr (detection <$> labels)).
  cbn [nullish prop String.eqb Ascii.eqb Bool.eqb gt0].
  unfold gt0. res_simpl.
  destruct (0 <? Z.of_nat (length (detection <$> labels))).
  - unfold object_badges. rewrite Hentries. res_simpl.
    eexists. split; [reflexivity|].
    cbn [elements String.eqb Ascii.eqb Bool.eqb flat_map app].
    by rewrite badges_elements.
  - res_simpl. eexists. split; reflexivity.
Qed.

Lemma mapM_detection_item (items : list jsval) :
  Forall is_detection_record items →
  ∃ rendered,
    mapM detection_item items = Ok rendered ∧
    length (flat_map (elements "detection-item") rendered) = length items.
Proof.
  induction 1 as [|x items Hx _ (rendered & Hr & Hl)]; [by eexists|].
  destruct (detection_item_renders x Hx) as (item & Hitem & Hone).
  exists (item :: rendered). simpl. res_simpl. rewrite Hitem, Hr.
  split; [done|]. simpl. rewrite length_app, Hone, Hl. done.
Qed.

(** X22.  The history is cut at eight: the historical block depends on
    the first eight records of the payload only.  Whatever comes after
    them, well formed or not, cannot change it or break it. *)
Theorem history_cut_at_eight (items : list jsval) :
  historical (VArr items) = historical (VArr (take 8 items)).
Proof.
  unfold historical.
  cbn [truthy get nullish prop String.eqb Ascii.eqb Bool.eqb].
  res_simpl. cbn [gt0 res_bind].
  rewrite take_take, Nat.min_id, length_take.
  destruct items as [|x items]; [done|].
  replace (0 <? Z.of_nat (length (x :: items))) with true
    by (symmetry; apply Z.ltb_lt; simpl; lia).
  replace (0 <? Z.of_nat (8 `min` length (x :: items))) with true
    by (symmetry; apply Z.ltb_lt; simpl; lia).
  done.
Qed.

(** X23.  For a payload of detection records the historical block shows
    one item per record up to eight, whatever labels the records carry;
    only the empty payload gives 'No detections yet'. *)
Theorem history_items (items : list jsval) :
  Forall is_detection_record items →
  ∃ tree,
    historical (VArr items) = Ok tree ∧
    length (elements "detection-item" tree) = (8 `min` length items)%nat ∧
    (items = [] ↔ tree = Elem "div" "no-data" [Text "No detections yet"]).
Proof.
  intros Hitems. destruct items as [|x items]; [by eexists|].
  destruct (mapM_detection_item (take 8 (x :: items)))
    as (rendered & Hr & Hl); [by apply Forall_take|].
  exists (Items rendered). split; [|split; [|done]].
  - unfold historical.
    cbn [truthy get nullish prop String.eqb Ascii.eqb Bool.eqb].
    res_simpl. cbn [gt0 res_bind].
    replace (0 <? Z.of_nat (length (x :: items))) with true
      by (symmetry; apply Z.ltb_lt; simpl; lia).
    by rewrite Hr.
  - cbn [elements]. by rewrite Hl, length_take.
Qed.

Lemma history_items_witness :
  ∃ tree,
    historical (VArr (replicate 11 (detection_record 1 "cam-1" 7 ["car"])))
    = Ok tree ∧
    length (elements "detection-item" tree) = 8%nat.
Proof.
  destruct (history_items (replicate 11 (detection_record 1 "cam-1" 7 ["car"])))
    as (tree & Ht & Hl & _).
  - apply Forall_replicate. by repeat eexists.
  - exists tree. split; [exact Ht | exact Hl].
Defined.

(** X24.  A live frame whose [latest_detection] is an object without a
    [detections] array takes the feed down: DetectionFeed throws a
    [TypeError], whatever the history holds. *)
Theorem live_detection_without_list
    (detections liveData : jsval) (latest : gmap string jsval) :
  prop liveData "latest_detection" = VObj latest →
  latest !! "detections" = None →
  DetectionFeed detections liveData = Throw TypeError.
Proof.
  intros Hlatest Hlist.
  assert (truthy liveData = true) as Hl by (by destruct liveData).
  unfold DetectionFeed, live_detection. rewrite Hl.
  rewrite (get_truthy liveData) by done. rewrite Hlatest.
  cbn [mbind res_mbind res_bind truthy get nullish prop].
  unfold obj_get at 3. by rewrite Hlist.
Qed.

Lemma live_detection_without_list_witness :
  DetectionFeed (VArr [])
    (VObj {[ "latest_detection" := VObj {[ "stream_id" := VStr "cam-1" ]} ]})
  = Throw TypeError.
Proof.
  by apply (live_detection_without_list _ _ {[ "stream_id" := VStr "cam-1" ]}).
Defined.

(** *** The order of the badges *)

Lemma first_seen_step (seen labels : list string) (k : string) :
  k ∈ foldl (λ seen l, if bool_decide (l ∈ seen) then seen else seen ++ [l])
        seen labels
  ↔ k ∈ seen ∨ k ∈ labels.
Proof.
  revert seen. induction labels as [|l labels IH]; intros seen; simpl.
  - rewrite elem_of_nil. tauto.
  - rewrite IH, elem_of_cons. case_bool_decide as Hl.
    + split; [tauto|]. intros [?|[Heq|?]]; [tauto| |tauto].
      left. by rewrite Heq.
    + rewrite elem_of_app, list_elem_of_singleton. tauto.
Qed.

Lemma forEach_created_fresh (labels counted created : list string)
    (counts : gmap string jsval) :
  Forall (λ k, k ∉ object_prototype) labels →
  spec_counts counted counts →
  (∀ k, k ∈ created ↔ k ∈ counted) →
  ∃ counts',
    forEach_created counts created (detection <$> labels)
    = Ok (counts',
          foldl (λ seen l, if bool_decide (l ∈ seen) then seen else seen ++ [l])
            created labels) ∧
    spec_counts (counted ++ labels) counts'.
Proof.
  revert counted created counts.
  induction labels as [|l labels IH]; intros counted created counts Hls Hc Hcr.
  - exists counts. by rewrite app_nil_r.
  - apply Forall_cons in Hls as [Hl Hls].
    destruct (count_detection_fresh counted l counts Hl Hc) as (c1 & Hc1 & Hs1).
    assert (created_after l c1 created
            = if bool_decide (l ∈ created) then created else created ++ [l])
      as Hafter.
    { unfold created_after. case_bool_decide; [done|].
      rewrite bool_decide_eq_true_2; [done|]. rewrite (Hs1 l).
      rewrite decide_True; [done|].
      apply elem_of_app. right. apply list_elem_of_here. }
    destruct (IH (counted ++ [l]) (created_after l c1 created) c1 Hls Hs1)
      as (c2 & Hc2 & Hs2).
    { intros k. rewrite Hafter, elem_of_app, list_elem_of_singleton, <-Hcr.
      case_bool_decide as Hin; [|by rewrite elem_of_app, list_elem_of_singleton].
      split; [tauto|]. intros [?|Heq]; [tauto|by rewrite Heq]. }
    exists c2. split; [|by rewrite <-app_assoc in Hs2].
    rewrite fmap_cons. cbn [forEach_created foldl].
    res_simpl. rewrite Hc1. cbn [res_bind].
    rewrite detection_class_name, <-Hafter. exact Hc2.
Qed.

Lemma own_keys_plain (created : list string) :
  Forall (λ k, array_index k = None) created → own_keys created = created.
Proof.
  intros Hplain. unfold own_keys.
  assert (omap (λ k, (λ i, (i, k)) <$> array_index k) created = []) as ->.
  { induction Hplain as [|k created Hk _ IH]; [done|].
    simpl. by rewrite Hk. }
  simpl. induction Hplain as [|k created Hk _ IH]; [done|].
  by rewrite filter_cons_True, IH.
Qed.

(** X25.  The badges come in first-seen order: for labels that are
    neither a name [Object.prototype] defines nor an array index,
    [Object.entries] of the aggregate lists each distinct label once, in
    the order of its first occurrence, with its number of occurrences. *)
Theorem badges_in_first_seen_order (labels : list string) :
  Forall (λ k, (k ∉ object_prototype) ∧ array_index k = None) labels →
  object_entries (VArr (detection <$> labels))
  = Ok ((λ l, (l, VNum (occurrences l labels))) <$> first_seen labels).
Proof.
  intros Hlabels.
  destruct (forEach_created_fresh labels [] [] ∅) as (counts & Hc & Hs).
  { eapply Forall_impl; [done|]. by intros k [? _]. }
  { intros l. rewrite lookup_empty, decide_False; [done|].
    apply not_elem_of_nil. }
  { done. }
  unfold object_entries. rewrite Hc. res_simpl. cbn [fst snd]. f_equal.
  fold (first_seen labels).
  assert (Forall (λ k, k ∈ labels) (first_seen labels)) as Hseen.
  { apply Forall_forall. intros k Hk. unfold first_seen in Hk.
    apply first_seen_step in Hk as [Hk|Hk]; [by apply elem_of_nil in Hk|done]. }
  rewrite own_keys_plain.
  - generalize dependent (first_seen labels). intros seen Hseen.
    induction Hseen as [|k seen Hk _ IH]; [done|].
    simpl. rewrite (Hs k), decide_True by done. simpl. f_equal. exact IH.
  - eapply Forall_impl; [done|]. intros k Hk. simpl in Hk.
    rewrite Forall_forall in Hlabels. by destruct (Hlabels k Hk).
Qed.

Lemma badges_in_first_seen_order_witness :
  object_entries (VArr (detection <$> ["person"; "car"; "person"; "dog"; "car"]))
  = Ok [("person", VNum 2); ("car", VNum 2); ("dog", VNum 1)].
Proof.
  apply (badges_in_first_seen_order ["person"; "car"; "person"; "dog"; "car"]).
  repeat apply Forall_cons_2;
    [(split; [apply (bool_decide_unpack _); by vm_compute | reflexivity])..
    |apply Forall_nil_2].
Defined.

(** Array indices come first, in ascending order, whenever they occur. *)
Lemma badges_with_indices :
  object_entries (VArr (detection <$> ["car"; "10"; "2"; "car"; "01"]))
  = Ok [("2", VNum 1); ("10", VNum 1); ("car", VNum 2); ("01", VNum 1)].
Proof. by vm_compute. Qed.

(** ** App.js: the whole view on documented payloads *)

Lemma step_well_formed (w : world) (e : event) :
  well_formed e →
  well_formed_state (cells w) → well_formed_state (cells (step w e)).
Proof.
  intros He (Hstats & Hstreams & Hdetections & Hlive).
  repeat split.
  - destruct (step_cell w Stats e) as [Heq|[status Heq]].
    + simpl in Heq. by rewrite Heq.
    + rewrite Heq in He. right. exact He.
  - destruct (step_cell w Streams e) as [Heq|[status Heq]].
    + simpl in Heq. by rewrite Heq.
    + rewrite Heq in He. exact He.
  - destruct (step_cell w Detections e) as [Heq|[status Heq]].
    + simpl in Heq. by rewrite Heq.
    + rewrite Heq in He. exact He.
  - destruct (step_liveData w e) as [Heq|[_ Heq]].
    + by rewrite Heq.
    + rewrite Heq in He. right. exact He.
Qed.

Lemma run_well_formed (w : world) (evs : list event) :
  Forall well_formed evs →
  well_formed_state (cells w) → well_formed_state (cells (run w evs)).
Proof.
  intros Hevs. revert w.
  induction Hevs as [|e evs He _ IH]; intros w Hw; [done|].
  apply IH. by apply step_well_formed.
Qed.

Lemma live_detection_renders (liveData : jsval) :
  liveData = VNull ∨ is_live_frame liveData →
  ∃ tree, live_detection liveData = Ok tree.
Proof.
  intros [->|[(fq & rq & ->)|(sid & fn & labels & ->)]]; [by eexists..|].
  destruct (object_entries_renders labels) as [entries Hentries].
  unfold live_detection, detection_event, get.
  set (latest := {[ "stream_id" := VStr sid; "frame_number" := VNum fn;
                    "detections" := VArr (detection <$> labels) ]}).
  cbn [truthy nullish]. res_simpl.
  change (prop (VObj _) "latest_detection") with (VObj latest).
  cbn [truthy nullish]. res_simpl.
  change (prop (VObj latest) "detections") with (VArr (detection <$> labels)).
  unfold object_badges. rewrite Hentries. by eexists.
Qed.

Lemma historical_renders (items : list jsval) :
  Forall is_detection_record items →
  ∃ tree, historical (VArr items) = Ok tree.
Proof.
  intros Hitems.
  destruct (mapM_detection_item (take 8 items)) as (rendered & Hr & _);
    [by apply Forall_take|].
  unfold historical.
  cbn [truthy get nullish prop String.eqb Ascii.eqb Bool.eqb].
  res_simpl. cbn [gt0 res_bind].
  destruct (0 <? Z.of_nat (length items)); [|by eexists].
  rewrite Hr. by eexists.
Qed.

Lemma well_formed_state_renders (s : state) :
  well_formed_state s → ∃ tree, App_view s = Ok tree.
Proof.
  intros (Hstats & (roster & Hroster & Hsummaries)
          & (items & Hitems & Hrecords) & Hlive).
  destruct (live_detection_renders _ Hlive) as [live Hl].
  destruct (historical_renders _ Hrecords) as [history Hh].
  assert (∃ dashboard system,
            Dashboard (stats s) (liveData s) = Ok dashboard ∧
            SystemStats (stats s) (streams s) (liveData s) = Ok system)
    as (dashboard & system & Hd & Hsys).
  { rewrite Hroster.
    destruct Hstats as [->|(f & d & a & fq & rq & ->)].
    - destruct (active_streams_renders roster Hsummaries) as [tree Htree].
      unfold SystemStats. rewrite Htree. by eexists _, _.
    - by apply views_render. }
  unfold App_view, DetectionFeed.
  rewrite Hd, Hsys, Hitems, Hl, Hh. by eexists.
Qed.

(** X26.  The view survives every run of documented payloads: when each
    poll that succeeds carries a payload of its endpoint's shape and each
    frame that decodes is a queue event or a detection event, [App]
    renders after every event, whatever fails in between and whatever
    labels the detections carry. *)
Theorem documented_payloads_render (evs : list event) :
  Forall well_formed evs →
  renders (App_view (cells (run mounted evs))) = true.
Proof.
  intros Hevs.
  destruct (well_formed_state_renders (cells (run mounted evs)))
    as [tree ->]; [|done].
  apply run_well_formed; [done|].
  repeat split; [by left|by exists []|by exists []|by left].
Qed.

Lemma documented_payloads_render_witness :
  renders
    (App_view
       (cells
          (run mounted
             [ Settle Stats (Response 200 (Some (snapshot 40 12 2 3 0)));
               Settle Streams NetworkError;
               WsOpen;
               WsMessage (Some (detection_event "cam-1" 7 ["constructor"]));
               WsMessage None;
               Settle Detections
                 (Response 200
                    (Some (VArr [detection_record 1 "cam-1" 7 ["car"]]))) ])))
  = true.
Proof.
  apply documented_payloads_render.
  repeat apply Forall_cons_2; try apply Forall_nil_2; simpl; try done.
  - by repeat eexists.
  - right. by repeat eexists.
  - eexists. split; [done|]. apply Forall_cons_2; [|done]. by repeat eexists.
Defined.

(** ** App.js under React: a render error *)

(** A snapshot whose [active_streams] is an object: every component
    returns its tree, React throws on the object it finds as a child, and
    the component goes. *)
Lemma object_child_example :
  let body := VObj {[ "total_frames_processed" := VNum 4;
                      "total_detections" := VNum 2;
                      "active_streams" := VObj ∅;
                      "frame_queue_size" := VNum 0;
                      "results_queue_size" := VNum 0 ]} in
  let c := session started [Settle Stats (Response 200 (Some body))] in
  renders (App_view (cells (step mounted (Settle Stats (Response 200 (Some body))))))
  = true ∧
  alive <$> c = Ok false ∧
  (λ c, interval (env (page c))) <$> c = Ok None.
Proof. by vm_compute. Qed.

Lemma session_stopped (c : component) (evs : list event) :
  alive c = false →
  interval (env (page c)) = None →
  ∃ c', session c evs = Ok c' ∧ alive c' = false ∧
        cells (page c') = cells (page c) ∧
        interval (env (page c')) = None ∧
        requests (env (page c')) = requests (env (page c)).
Proof.
  revert c. induction evs as [|e evs IH]; intros c Hc Hi; [by exists c|].
  assert (∃ c1, deliver c e = Ok c1 ∧ alive c1 = false ∧
                cells (page c1) = cells (page c) ∧
                interval (env (page c1)) = None ∧
                requests (env (page c1)) = requests (env (page c)))
    as (c1 & He & Hc1 & Hs1 & Hi1 & Hr1).
  { destruct (step_cleared (page c) e Hi) as [Hi' Hr'].
    unfold deliver. rewrite Hc. destruct e; by eexists. }
  destruct (IH c1 Hc1 Hi1) as (c2 & Hevs & Hc2 & Hs2 & Hi2 & Hr2).
  exists c2. cbn [session]. rewrite He. res_simpl.
  split; [done|]. split; [done|]. split; [congruence|].
  split; [done|]. congruence.
Qed.

(** X27.  A render error ends the polling.  When a [/stats] response
    whose body is an object without [total_frames_processed] settles
    while the component is there, rendering throws, the component is
    taken down and the timer cleared: whatever happens next, no request
    is issued any more and the state stays as that body left it. *)
Theorem render_error_stops_polling
    (c : component) (status : Z) (body : gmap string jsval)
    (evs : list event) :
  alive c = true →
  Stats ∈ in_flight (env (page c)) →
  body !! "total_frames_processed" = None →
  ∃ c',
    session c (Settle Stats (Response status (Some (VObj body))) :: evs)
    = Ok c' ∧
    alive c' = false ∧
    stats (cells (page c')) = VObj body ∧
    interval (env (page c')) = None ∧
    requests (env (page c')) = requests (env (page c)).
Proof.
  intros Ha Hin Hbody.
  set (e := Settle Stats (Response status (Some (VObj body)))).
  assert (App_view (cells (step (page c) e)) = Throw TypeError) as Hview.
  { subst e. simpl. rewrite bool_decide_eq_true_2 by done.
    unfold App_view, Dashboard. simpl. unfold obj_get. by rewrite Hbody. }
  assert (stats (cells (step (page c) e)) = VObj body ∧
          requests (env (step (page c) e)) = requests (env (page c)))
    as [Hstats Hreq].
  { subst e. simpl. by rewrite bool_decide_eq_true_2 by done. }
  destruct (unmount_clears (step (page c) e)) as (Hi & Hr & _ & Hs).
  destruct (session_stopped
              {| page := unmount (step (page c) e); alive := false |} evs
              eq_refl Hi) as (c' & Hevs & Hc' & Hs' & Hi' & Hr').
  exists c'. cbn [session]. unfold deliver at 1. rewrite Ha.
  fold e. unfold rerender. rewrite Hview. res_simpl.
  split; [exact Hevs|]. split; [done|]. split; [|split; [done|]].
  - rewrite Hs'. cbn [page]. by rewrite Hs.
  - rewrite Hr'. cbn [page]. by rewrite Hr.
Qed.

Lemma render_error_stops_polling_witness :
  ∃ c',
    session started
      [ Settle Stats (Response 404 (Some (VObj {[ "detail" := VStr "Not Found" ]})));
        Elapse 2000; Elapse 6000 ]
    = Ok c' ∧
    alive c' = false ∧
    interval (env (page c')) = None ∧
    requests (env (page c')) = round.
Proof.
  destruct (render_error_stops_polling started 404
              {[ "detail" := VStr "Not Found" ]} [Elapse 2000; Elapse 6000])
    as (c' & Hs & Ha & _ & Hi & Hr).
  - reflexivity.
  - apply (bool_decide_unpack _). by vm_compute.
  - reflexivity.
  - exists c'. exact (conj Hs (conj Ha (conj Hi Hr))).
Defined.
